(** * Request caching, fingerprints, pair encoding and rolling windows
      of [lm_eval/api/model.py].

    The development embeds the functions of [lm_eval/api/model.py] that
    the specification of the caching and replay layer talks about:

    - [hash_args], the request fingerprint (with the [json.dumps] and
      SHA-256 it is built from);
    - [CacheHook] and its [add_partial];
    - the function [fn] that [CachingLM.__getattr__] returns for
      [loglikelihood], [loglikelihood_rolling] and [generate_until];
    - [TemplateLM._encode_pair] and [TemplateLM.loglikelihood];
    - the windows described by the docstring of [LM.loglikelihood_rolling];
    - the request methods of the wrappers [PrefixLM], [SuffixLM] and
      [CipherLM], in the module [Wrappers].

    Python objects are modelled as follows.  A [str] is a [string] whose
    characters are the code points 0..255.  Request arguments are values
    of [pyval] (the part of Python's data model [json.dumps] writes
    without a custom encoder: [None], [bool], [int], [str], lists,
    tuples and dictionaries whose keys are [str], [int], [bool] or
    [None]; a [float], as a value or as a key, is left out).  A result,
    a stored value or a result slot is a [pyobj]: either [PyNone] or an
    object that is not [None]. *)

From Stdlib Require Import ZArith NArith Ascii String DecimalString DecimalZ DecimalPos.
From stdpp Require Import gmap strings list fin_maps.

Local Open Scope N_scope.

(* ===================================================================== *)
(** ** Python values that occur as request arguments *)
(* ===================================================================== *)

(** The keys of a dictionary that [json.dumps] accepts. *)
Inductive pykey : Type :=
| KStr (s : string)
| KInt (z : Z)
| KBool (b : bool)
| KNone.

#[local] Unset Elimination Schemes.
Inductive pyval : Type :=
| PNone
| PBool (b : bool)
| PInt (z : Z)
| PStr (s : string)
| PList (l : list pyval)
| PTuple (l : list pyval)
| PDict (d : list (pykey * pyval)).
#[local] Set Elimination Schemes.

(** [bool(v)]: the truth value Python gives an object in a condition. *)
Definition truthy (v : pyval) : bool :=
  match v with
  | PNone => false
  | PBool b => b
  | PInt z => negb (Z.eqb z 0)
  | PStr s => negb (String.eqb s "")
  | PList l | PTuple l => match l with [] => false | _ => true end
  | PDict d => match d with [] => false | _ => true end
  end.

(** [k == key] for a key [k] of a dictionary and a [str]: only a [str]
    equals a [str]. *)
Definition key_eqb (k : pykey) (key : string) : bool :=
  match k with
  | KStr s => String.eqb s key
  | _ => false
  end.

(** [d.get(key, default)] on a dictionary kept in insertion order, for
    a key that is a [str]. *)
Fixpoint dict_get (d : list (pykey * pyval)) (key : string) (default : pyval) : pyval :=
  match d with
  | [] => default
  | (k, v) :: d' => if key_eqb k key then v else dict_get d' key default
  end.

(* ===================================================================== *)
(** ** [json.dumps] with its default options *)
(* ===================================================================== *)

Module Json.

Definition dquote : ascii := "034"%char.
Definition backslash : ascii := "092"%char.

(** One lowercase hexadecimal digit. *)
Definition hex_digit (n : N) : ascii :=
  match n with
  | 0 => "0" | 1 => "1" | 2 => "2" | 3 => "3" | 4 => "4" | 5 => "5"
  | 6 => "6" | 7 => "7" | 8 => "8" | 9 => "9" | 10 => "a" | 11 => "b"
  | 12 => "c" | 13 => "d" | 14 => "e" | _ => "f"
  end%char.

(** ['\\u{0:04x}'.format(n)] *)
Definition u_escape (n : N) : string :=
  String backslash (String "u"
    (String (hex_digit (n / 4096 mod 16)) (String (hex_digit (n / 256 mod 16))
      (String (hex_digit (n / 16 mod 16)) (String (hex_digit (n mod 16)) ""))))).

(** The replacement [py_encode_basestring_ascii] makes for one
    character: [ESCAPE_DCT] for the backslash, the quote and the
    control characters, the character itself in the range space to
    tilde, and a [\uXXXX] escape otherwise. *)
Definition escape_char (c : ascii) : string :=
  let n := N_of_ascii c in
  if n =? 92 then String backslash (String backslash "")
  else if n =? 34 then String backslash (String dquote "")
  else if n =? 8 then String backslash "b"
  else if n =? 12 then String backslash "f"
  else if n =? 10 then String backslash "n"
  else if n =? 13 then String backslash "r"
  else if n =? 9 then String backslash "t"
  else if (32 <=? n) && (n <=? 126) then String c ""
  else u_escape n.

Fixpoint escape (s : string) : string :=
  match s with
  | "" => ""
  | String c s' => escape_char c +:+ escape s'
  end.

Definition encode_basestring_ascii (s : string) : string :=
  String dquote (escape s +:+ String dquote "").

(** [int.__repr__] *)
Definition int_repr (z : Z) : string := NilZero.string_of_int (Z.to_int z).

(** [sep.join(l)] *)
Fixpoint join_tail (sep : string) (l : list string) : string :=
  match l with
  | [] => ""
  | x :: l' => sep +:+ x +:+ join_tail sep l'
  end.

Definition join (sep : string) (l : list string) : string :=
  match l with
  | [] => ""
  | x :: l' => x +:+ join_tail sep l'
  end.

Definition item_separator : string := ", ".
Definition key_separator : string := ": ".

(** The text [_iterencode_dict] takes for a key: the key when it is a
    [str], and [true], [false], [null] or the decimal digits when it is
    a [bool], [None] or an [int]. *)
Definition key_text (k : pykey) : string :=
  match k with
  | KStr s => s
  | KInt z => int_repr z
  | KBool true => "true"
  | KBool false => "false"
  | KNone => "null"
  end.

(** [json.dumps(v)]; the encoder takes a list and a tuple by the same
    branch, [isinstance(o, (list, tuple))]. *)
Fixpoint dumps (v : pyval) : string :=
  match v with
  | PNone => "null"
  | PBool true => "true"
  | PBool false => "false"
  | PInt z => int_repr z
  | PStr s => encode_basestring_ascii s
  | PList l | PTuple l => "[" +:+ join item_separator (map dumps l) +:+ "]"
  | PDict d =>
      "{" +:+ join item_separator
                (map (fun kv => encode_basestring_ascii (key_text (fst kv))
                                +:+ key_separator +:+ dumps (snd kv)) d)
          +:+ "}"
  end.

(** *** Vocabulary of the statements about [dumps] *)

Definition is_digit (c : ascii) : bool :=
  let n := N_of_ascii c in ((48 <=? n) && (n <=? 57))%N.

Fixpoint all_digits (s : string) : bool :=
  match s with
  | "" => true
  | String c s' => is_digit c && all_digits s'
  end.
















End Json.

(* ===================================================================== *)
(** ** [hashlib.sha256] (FIPS 180-4) *)
(* ===================================================================== *)

Module Sha256.

Definition w32 (x : N) : N := x mod 4294967296.
Definition add32 (x y : N) : N := w32 (x + y).
Definition not32 (x : N) : N := N.lxor (w32 x) 4294967295.
Definition rotr (n x : N) : N :=
  N.lor (N.shiftr x n) (w32 (N.shiftl x (32 - n))).
Definition shr (n x : N) : N := N.shiftr x n.

Definition Ch (x y z : N) : N := N.lxor (N.land x y) (N.land (not32 x) z).
Definition Maj (x y z : N) : N :=
  N.lxor (N.lxor (N.land x y) (N.land x z)) (N.land y z).
Definition BSigma0 (x : N) : N := N.lxor (N.lxor (rotr 2 x) (rotr 13 x)) (rotr 22 x).
Definition BSigma1 (x : N) : N := N.lxor (N.lxor (rotr 6 x) (rotr 11 x)) (rotr 25 x).
Definition ssigma0 (x : N) : N := N.lxor (N.lxor (rotr 7 x) (rotr 18 x)) (shr 3 x).
Definition ssigma1 (x : N) : N := N.lxor (N.lxor (rotr 17 x) (rotr 19 x)) (shr 10 x).

(** The constants of the standard are the first 32 bits of the
    fractional parts of the cube roots (for [K]) and of the square roots
    (for [H0]) of the first prime numbers. *)
Definition is_prime (n : nat) : bool :=
  forallb (fun d => negb (Nat.eqb (Nat.modulo n d) 0%nat)) (seq 2 (n - 2)).

Definition primes (count : nat) : list N :=
  map N.of_nat (take count (List.filter is_prime (seq 2 400))).

(** The integer part of the cube root of [x], one bit at a time. *)
Fixpoint cube_root (bits : nat) (x root : N) : N :=
  match bits with
  | O => root
  | S bits' =>
      let c := root + 2 ^ N.of_nat bits' in
      cube_root bits' x (if c * c * c <=? x then c else root)
  end.

Definition frac_cube_root (p : N) : N := w32 (cube_root 40 (p * 2 ^ 96) 0).
Definition frac_square_root (p : N) : N := w32 (N.sqrt (p * 2 ^ 64)).

Definition K : list N := Eval vm_compute in map frac_cube_root (primes 64).

(** The eight working variables, and the hash value between blocks. *)
Record state : Type := State { sa : N; sb : N; sc : N; sd : N; se : N; sf : N; sg : N; sh : N }.

Definition H0 : state :=
  Eval vm_compute in
  match map frac_square_root (primes 8) with
  | [a; b; c; d; e; f; g; h] => State a b c d e f g h
  | _ => State 0 0 0 0 0 0 0 0
  end.

(** Padding: a [1] bit, zero bits up to 56 modulo 64 bytes, and the
    length of the message in bits as a 64-bit big-endian number. *)
Definition be_bytes (count : nat) (x : N) : list N :=
  map (fun i => (x / 256 ^ N.of_nat i) mod 256) (rev (seq 0 count)).

Definition pad (msg : list N) : list N :=
  let len := N.of_nat (length msg) in
  let zeros := N.to_nat ((119 - len mod 64) mod 64) in
  msg ++ [128] ++ repeat 0 zeros ++ be_bytes 8 (8 * len).

Fixpoint words (count : nat) (bytes : list N) : list N :=
  match count with
  | O => []
  | S count' =>
      match bytes with
      | b0 :: b1 :: b2 :: b3 :: rest =>
          (b0 * 16777216 + b1 * 65536 + b2 * 256 + b3) :: words count' rest
      | _ => []
      end
  end.

Fixpoint blocks (count : nat) (bytes : list N) : list (list N) :=
  match count with
  | O => []
  | S count' => words 16 (take 64 bytes) :: blocks count' (drop 64 bytes)
  end.

(** The message schedule: [w] holds W(t-16) .. W(t-1). *)
Fixpoint schedule (rounds : nat) (w : list N) : list N :=
  match rounds with
  | O => []
  | S rounds' =>
      let wt := add32 (add32 (ssigma1 (nth 14 w 0)) (nth 9 w 0))
                      (add32 (ssigma0 (nth 1 w 0)) (nth 0 w 0)) in
      wt :: schedule rounds' (drop 1 w ++ [wt])
  end.

Definition round (s : state) (kw : N * N) : state :=
  let t1 := add32 (add32 (add32 (sh s) (BSigma1 (se s)))
                         (add32 (Ch (se s) (sf s) (sg s)) (fst kw))) (snd kw) in
  let t2 := add32 (BSigma0 (sa s)) (Maj (sa s) (sb s) (sc s)) in
  State (add32 t1 t2) (sa s) (sb s) (sc s) (add32 (sd s) t1) (se s) (sf s) (sg s).

Definition compress (h : state) (block : list N) : state :=
  let w := block ++ schedule 48 block in
  let s := fold_left round (zip K w) h in
  State (add32 (sa h) (sa s)) (add32 (sb h) (sb s)) (add32 (sc h) (sc s))
        (add32 (sd h) (sd s)) (add32 (se h) (se s)) (add32 (sf h) (sf s))
        (add32 (sg h) (sg s)) (add32 (sh h) (sh s)).

Definition sha256 (msg : list N) : state :=
  let padded := pad msg in
  fold_left compress (blocks (length padded / 64)%nat padded) H0.

(** [.hexdigest()]: eight lowercase hexadecimal digits per word. *)
Definition hex_byte (b : N) (rest : string) : string :=
  String (Json.hex_digit (b / 16 mod 16)) (String (Json.hex_digit (b mod 16)) rest).

Definition hex_word (x : N) (rest : string) : string :=
  hex_byte (x / 16777216) (hex_byte (x / 65536) (hex_byte (x / 256) (hex_byte x rest))).

Definition hexdigest (s : state) : string :=
  hex_word (sa s) (hex_word (sb s) (hex_word (sc s) (hex_word (sd s)
    (hex_word (se s) (hex_word (sf s) (hex_word (sg s) (hex_word (sh s) ""))))))).

End Sha256.

(* ===================================================================== *)
(** ** The fingerprint of a request: [hash_args] *)
(* ===================================================================== *)

(** [s.encode("utf-8")] for code points below 256. *)
Definition utf8_char (c : ascii) : list N :=
  let n := N_of_ascii c in
  if n <? 128 then [n] else [N.lor 192 (N.shiftr n 6); N.lor 128 (N.land n 63)].

Fixpoint encode_utf8 (s : string) : list N :=
  match s with
  | "" => []
  | String c s' => utf8_char c ++ encode_utf8 s'
  end.

(** The text that is hashed: [json.dumps([attr] + list(args))]. *)
Definition hash_input (attr : string) (args : list pyval) : string :=
  Json.dumps (PList (PStr attr :: args)).

Definition hash_args (attr : string) (args : list pyval) : string :=
  let dat := hash_input attr args in
  Sha256.hexdigest (Sha256.sha256 (encode_utf8 dat)).

#[global] Arguments hash_args : simpl never.
#[global] Arguments Sha256.sha256 : simpl never.



(** A string of characters below 128. *)
Fixpoint all_7bit (s : string) : bool :=
  match s with
  | "" => true
  | String c s' => (N_of_ascii c <? 128)%N && all_7bit s'
  end.


(* ===================================================================== *)
(** ** Requests, results and exceptions *)
(* ===================================================================== *)

(** Modelled from the spec: the class [Instance] (lm_eval/api/instance.py)
    is not among the sources.  The record has the fields that the
    constructor calls of model.py pass (request_type, doc, arguments,
    idx, metadata), which are the fields of a Request in section 3 of
    the specification; [args] is the argument tuple. *)
Record Instance : Type := {
  request_type : string;
  doc : pyval;
  arguments : list pyval;
  idx : Z;
  metadata : pyval
}.

Definition args (req : Instance) : list pyval := arguments req.

(** A Python object seen from the cache: [None], or an object that is
    not [None] (a result of the backend in [R]). *)
Inductive pyobj (R : Type) : Type :=
| PyNone
| PyObj (r : R).
Arguments PyNone {R}.
Arguments PyObj {R} r.

Definition is_None {R : Type} (ob : pyobj R) : bool :=
  match ob with
  | PyNone => true
  | PyObj _ => false
  end.

Inductive exn : Type :=
| AssertionError
| IndexError
| AttributeError.

(** The outcome of a call: a value, or an exception that ends it. *)
Inductive outcome (A : Type) : Type :=
| Ok (a : A)
| Raise (e : exn).
Arguments Ok {A} a.
Arguments Raise {A} e.

#[global] Instance outcome_ret : MRet outcome := fun A a => Ok a.
#[global] Instance outcome_bind : MBind outcome := fun A B f m =>
  match m with
  | Ok a => f a
  | Raise e => Raise e
  end.

(* ===================================================================== *)
(** ** The persistent store, [CacheHook] and [CachingLM] *)
(* ===================================================================== *)

Section Caching.

Context {R : Type}.

(** A [SqliteDict] is the table kept in the file at its path; the disk
    maps the paths of the files that exist to their tables. *)
#[local] Abbreviation table := (gmap string (pyobj R)).
#[local] Abbreviation disk := (gmap string (gmap string (pyobj R))).

(** [SqliteDict(path)]: the file is created, empty, when it is not there. *)
Definition sqlite_open (path : string) (d : disk) : disk :=
  match d !! path with
  | Some _ => d
  | None => <[path := ∅]> d
  end.

(** [dbdict[key] = value] on the dictionary at [path]. *)
Definition dbdict_set (path key : string) (value : pyobj R) (d : disk) : disk :=
  <[path := <[key := value]> (d !!! path)]> d.

(** A method of the underlying LM: it is given the requests, returns
    its results, and may write to the disk on the way, through the cache
    hook installed by [CachingLM.__init__]. *)
Definition backend : Type :=
  string -> list Instance -> disk -> list (pyobj R) * disk.

Record CachingLM : Type := {
  lm : backend;
  cache_db : string
}.

(** [CachingLM.__init__]; the dictionary [self.dbdict] is the table at
    [cache_db]. *)
Definition CachingLM_init (lm : backend) (cache_db : string) (d : disk)
  : CachingLM * disk :=
  ({| lm := lm; cache_db := cache_db |}, sqlite_open cache_db d).

(** [CacheHook]: [dbdict] is [None] or the dictionary of the caching LM,
    named by its path. *)
Record CacheHook : Type := { dbdict : option string }.

Definition CacheHook_init (cachinglm : option CachingLM) : CacheHook :=
  match cachinglm with
  | None => {| dbdict := None |}
  | Some c => {| dbdict := Some (cache_db c) |}
  end.

Definition add_partial (self : CacheHook) (attr : string) (req : list pyval)
    (res : pyobj R) (d : disk) : disk :=
  match dbdict self with
  | None => d
  | Some path =>
      let hsh := hash_args attr req in
      dbdict_set path hsh res d
  end.

Definition get_cache_hook (self : CachingLM) : CacheHook :=
  CacheHook_init (Some self).

(** The test [attr == "generate_until" and req.args[1].get("do_sample", False)]. *)
Definition do_sample (attr : string) (req : Instance) : outcome bool :=
  if String.eqb attr "generate_until" then
    match args req with
    | _ :: PDict kwargs :: _ => Ok (truthy (dict_get kwargs "do_sample" (PBool false)))
    | _ :: _ :: _ => Raise AttributeError
    | _ => Raise IndexError
    end
  else Ok false.

(** One turn of the first loop of [fn]: the slot appended to [res], and
    the request appended to [remaining_reqs] when it is not served from
    the cache. *)
Definition check_request (db : table) (attr : string) (req : Instance)
  : outcome (pyobj R * option Instance) :=
  let hsh := hash_args attr (args req) in
  sampling ← do_sample attr req;
  if sampling : bool then Ok (PyNone, Some req)
  else match db !! hsh with
       | Some ob => if is_None ob then Raise AssertionError else Ok (ob, None)
       | None => Ok (PyNone, Some req)
       end.

Fixpoint check_loop (db : table) (attr : string) (requests : list Instance)
    (res : list (pyobj R)) (remaining_reqs : list Instance)
  : outcome (list (pyobj R) * list Instance) :=
  match requests with
  | [] => Ok (res, remaining_reqs)
  | req :: requests' =>
      '(ob, miss) ← check_request db attr req;
      check_loop db attr requests' (res ++ [ob])
        (match miss with Some r => remaining_reqs ++ [r] | None => remaining_reqs end)
  end.

(** [while res[resptr] is not None: resptr += 1], run on the slots from
    [resptr] on; reading past the end of [res] raises. *)
Fixpoint skip_filled (slots : list (pyobj R)) (resptr : nat) : outcome nat :=
  match slots with
  | [] => Raise IndexError
  | ob :: slots' => if is_None ob then Ok resptr else skip_filled slots' (S resptr)
  end.

(** The second loop of [fn], over [zip(remaining_reqs, rem_res)]. *)
Fixpoint merge_loop (self : CachingLM) (attr : string)
    (pairs : list (Instance * pyobj R)) (res : list (pyobj R)) (resptr : nat)
    (d : disk) : outcome (list (pyobj R) * disk) :=
  match pairs with
  | [] => Ok (res, d)
  | (req, r) :: pairs' =>
      resptr' ← skip_filled (drop resptr res) resptr;
      let res' := <[resptr' := r]> res in
      let hsh := hash_args attr (args req) in
      merge_loop self attr pairs' res' resptr' (dbdict_set (cache_db self) hsh r d)
  end.

(** The function [fn] that [CachingLM.__getattr__] returns for [attr]
    among loglikelihood, loglikelihood_rolling and generate_until.
    Logging, the progress bar and [commit] leave the results and the
    tables as they are. *)
Definition fn (self : CachingLM) (attr : string) (requests : list Instance)
    (d : disk) : outcome (list (pyobj R) * disk) :=
  '(res, remaining_reqs) ← check_loop (d !!! cache_db self) attr requests [] [];
  let '(rem_res, d1) := lm self attr remaining_reqs d in
  merge_loop self attr (zip remaining_reqs rem_res) res 0 d1.

(** What [fn] hands to the backend. *)
Definition remaining (self : CachingLM) (attr : string) (requests : list Instance)
    (d : disk) : outcome (list Instance) :=
  '(_, remaining_reqs) ← check_loop (d !!! cache_db self) attr requests [] [];
  Ok remaining_reqs.

(** *** Vocabulary of the statements about [fn] *)

(** The request's sampling flag is set: the first branch of the loop. *)
Definition sampling (attr : string) (req : Instance) : bool :=
  match do_sample attr req with
  | Ok true => true
  | _ => false
  end.

(** The request is one that the first loop leaves to the backend: its
    sampling flag is set, or its fingerprint is not a key of [db]. *)
Definition is_miss (db : table) (attr : string) (req : Instance) : bool :=
  match do_sample attr req with
  | Ok true => true
  | Ok false =>
      match db !! hash_args attr (args req) with
      | Some _ => false
      | None => true
      end
  | Raise _ => false
  end.

(** The slot the first loop appends for a request. *)
Definition slot_of (db : table) (attr : string) (req : Instance) : pyobj R :=
  if is_miss db attr req then PyNone
  else default PyNone (db !! hash_args attr (args req)).

(** The slots with the free ones filled, from the left, by [rs]. *)
Fixpoint fill (slots rs : list (pyobj R)) : list (pyobj R) :=
  match slots with
  | [] => []
  | ob :: slots' =>
      if is_None ob then
        match rs with
        | r :: rs' => r :: fill slots' rs'
        | [] => ob :: slots'
        end
      else ob :: fill slots' rs
  end.

(** The number of free slots. *)
Definition count_None (slots : list (pyobj R)) : nat :=
  length (List.filter is_None slots).

(** The writes of the second loop. *)
Definition cache_writes (self : CachingLM) (attr : string)
    (pairs : list (Instance * pyobj R)) (d : disk) : disk :=
  foldl (fun d p => dbdict_set (cache_db self) (hash_args attr (args p.1)) p.2 d) d pairs.

(** The disks on which no value that was ever written is [None]: they
    are built from the empty disk by opening files and by writing
    objects that are not [None]. *)
Inductive written_not_None : disk -> Prop :=
| wnn_empty : written_not_None ∅
| wnn_open path d : written_not_None d -> written_not_None (sqlite_open path d)
| wnn_set path key r d :
    written_not_None d -> written_not_None (dbdict_set path key (PyObj r) d).

End Caching.

(* ===================================================================== *)
(** ** Requests, backends and stores used in the examples *)
(* ===================================================================== *)

Definition mk_request (type : string) (arguments : list pyval) (idx : Z) : Instance :=
  {| request_type := type; doc := PNone; arguments := arguments; idx := idx;
     metadata := PNone |}.

Definition req_ab : Instance := mk_request "loglikelihood" [PStr "a"; PStr "b"] 0.
Definition req_ac : Instance := mk_request "loglikelihood" [PStr "a"; PStr "c"] 1.
Definition req_ad : Instance := mk_request "loglikelihood" [PStr "a"; PStr "d"] 2.

Definition req_sampled : Instance :=
  mk_request "generate_until" [PStr "ctx"; PDict [(KStr "do_sample", PBool true)]] 0.
Definition req_greedy : Instance :=
  mk_request "generate_until" [PStr "ctx"; PDict [(KStr "do_sample", PBool false)]] 0.

(** A backend that answers every request with its request type and
    position in the batch it is given, and writes nothing. *)
Definition numbered_lm : @backend (string * nat) :=
  fun attr requests d => (imap (fun i req => PyObj (request_type req, i)) requests, d).

(** A backend whose first answer is [None]. *)
Definition none_first_lm : @backend (string * nat) :=
  fun attr requests d =>
    (imap (fun i req => match i with O => PyNone | _ => PyObj (request_type req, i) end)
          requests, d).

Definition cache_path : string := "lm_cache/model.db".

(** The results of a call that returned. *)
Definition returned {A B : Type} (o : outcome (A * B)) : option A :=
  match o with
  | Ok (a, _) => Some a
  | Raise _ => None
  end.

Definition cached_lm : CachingLM := {| lm := numbered_lm; cache_db := cache_path |}.
Definition cached_none_first_lm : CachingLM :=
  {| lm := none_first_lm; cache_db := cache_path |}.

(** A store that holds a result for [req_ac] only. *)
Definition warm_disk : gmap string (gmap string (pyobj (string * nat))) :=
  dbdict_set cache_path (hash_args "loglikelihood" (args req_ac)) (PyObj ("cached", 7%nat)) ∅.

(** A store that holds a result under the fingerprint of [req_sampled]. *)
Definition sampled_disk : gmap string (gmap string (pyobj (string * nat))) :=
  dbdict_set cache_path (hash_args "generate_until" (args req_sampled))
    (PyObj ("stale", 0%nat)) ∅.

(** A backend that answers the first request it is given and no other. *)
Definition first_only_lm : @backend (string * nat) :=
  fun attr requests d => (take 1%nat (imap (fun i req => PyObj (request_type req, i)) requests), d).

Definition cached_first_only_lm : CachingLM :=
  {| lm := first_only_lm; cache_db := cache_path |}.

(** A store in which [None] is recorded under the fingerprint of [req_ac]. *)
Definition none_disk : gmap string (gmap string (pyobj (string * nat))) :=
  add_partial (get_cache_hook cached_lm) "loglikelihood" (args req_ac) PyNone ∅.

(* ===================================================================== *)
(** ** [TemplateLM._encode_pair] *)
(* ===================================================================== *)

(** [c.isspace()] for a code point below 256. *)
Definition isspace (c : ascii) : bool :=
  let n := N_of_ascii c in
  ((9 <=? n) && (n <=? 13)) || ((28 <=? n) && (n <=? 32)) || (n =? 133) || (n =? 160).

(** [s.rstrip()] *)
Fixpoint rstrip (s : string) : string :=
  match s with
  | "" => ""
  | String c s' =>
      match rstrip s' with
      | "" => if isspace c then "" else String c ""
      | t => String c t
      end
  end.

Fixpoint str_take (n : nat) (s : string) : string :=
  match n, s with
  | S n', String c s' => String c (str_take n' s')
  | _, _ => ""
  end.

Fixpoint str_drop (n : nat) (s : string) : string :=
  match n, s with
  | S n', String _ s' => str_drop n' s'
  | _, _ => s
  end.

(** The slices [s[-n:]] and [s[:-n]] for [n > 0]. *)
Definition slice_last (n : nat) (s : string) : string :=
  str_drop (String.length s - n) s.

Definition slice_but_last (n : nat) (s : string) : string :=
  str_take (String.length s - n) s.

Inductive auto_model_class : Type :=
| AutoModelForCausalLM
| AutoModelForSeq2SeqLM.

(** What [_encode_pair] uses of a [TemplateLM]: the attribute
    [AUTO_MODEL_CLASS], when the object has one, and the abstract method
    [tok_encode(string, **kwargs)], whose second argument is the keyword
    [add_special_tokens] when the call passes it. *)
Class TemplateLM (token : Type) : Type := {
  AUTO_MODEL_CLASS : option auto_model_class;
  tok_encode : string -> option bool -> list token
}.

Definition _encode_pair {token : Type} `{TemplateLM token}
    (context continuation : string) : list token * list token :=
  let n_spaces := (String.length context - String.length (rstrip context))%nat in
  let '(context, continuation) :=
    if (0 <? n_spaces)%nat
    then (slice_but_last n_spaces context, slice_last n_spaces context +:+ continuation)
    else (context, continuation) in
  let model_class := AUTO_MODEL_CLASS in
  match model_class with
  | Some AutoModelForSeq2SeqLM =>
      let context_enc := tok_encode context None in
      let continuation_enc := tok_encode continuation (Some false) in
      (context_enc, continuation_enc)
  | _ =>
      let whole_enc := tok_encode (context +:+ continuation) None in
      let context_enc := tok_encode context None in
      let context_enc_len := length context_enc in
      let continuation_enc := drop context_enc_len whole_enc in
      (context_enc, continuation_enc)
  end.

(** The two strings that [_encode_pair] encodes. *)
Definition split_pair (context continuation : string) : string * string :=
  let n_spaces := (String.length context - String.length (rstrip context))%nat in
  if (0 <? n_spaces)%nat
  then (slice_but_last n_spaces context, slice_last n_spaces context +:+ continuation)
  else (context, continuation).

(** A run of whitespace, and the last character of a string. *)
Fixpoint all_space (s : string) : bool :=
  match s with
  | "" => true
  | String c s' => isspace c && all_space s'
  end.

Fixpoint last_char (s : string) : option ascii :=
  match s with
  | "" => None
  | String c "" => Some c
  | String _ s' => last_char s'
  end.


(* ===================================================================== *)
(** ** The windows of [loglikelihood_rolling] *)
(* ===================================================================== *)

Section Rolling.

Context {token : Type}.

(** A window: the tokens given to the model, the tokens it predicts,
    and the positions in the token sequence of the predicted tokens,
    from [pred_from] up to [pred_to], the latter left out. *)
Record window : Type := {
  w_input : list token;
  w_pred : list token;
  pred_from : nat;
  pred_to : nat
}.

(** [l[i:j]] for [0 <= i]. *)
Definition slice (i j : nat) (l : list token) : list token :=
  take (j - i) (drop i l).

(** Modelled from the spec: the function that cuts a token sequence into
    windows (lm_eval/utils.py) is not among the sources.  The definition
    follows section 4.5 of the specification and the example in the
    docstring of [LM.loglikelihood_rolling]: the input is read as the
    boundary token followed by the token sequence; a window moves the
    prediction frontier as far as [max_window] inputs allow, takes as
    input the last [max_window] tokens that end at the new frontier (or
    all of them, when there are fewer), and predicts the tokens between
    the old frontier and the new one.  [fuel] bounds the number of
    windows; the length of the sequence is enough. *)
Fixpoint windows_from (fuel max_window predicted : nat) (boundary_token : token)
    (token_sequence : list token) : list window :=
  match fuel with
  | O => []
  | S fuel' =>
      if (predicted <? length token_sequence)%nat then
        let frontier := Nat.min (predicted + max_window) (length token_sequence) in
        {| w_input := slice (frontier - max_window) frontier (boundary_token :: token_sequence);
           w_pred := slice predicted frontier token_sequence;
           pred_from := predicted;
           pred_to := frontier |}
        :: windows_from fuel' max_window frontier boundary_token token_sequence
      else []
  end.

(** Modelled from the spec: the windows of a token sequence, see
    [windows_from]. *)
Definition rolling_windows (token_sequence : list token) (max_window : nat)
    (boundary_token : token) : list window :=
  windows_from (length token_sequence) max_window 0 boundary_token token_sequence.

(** The positions predicted by a window. *)
Definition predicted_positions (w : window) : list nat :=
  seq (pred_from w) (pred_to w - pred_from w).

(** What a window of the list is, given the frontier it starts from. *)
Definition window_ok (max_window : nat) (b : token) (tokens : list token)
    (w : window) : Prop :=
  (pred_from w < pred_to w /\ pred_to w <= length tokens /\
   pred_to w = Nat.min (pred_from w + max_window) (length tokens) /\
   w_pred w = slice (pred_from w) (pred_to w) tokens /\
   w_input w = slice (pred_to w - max_window) (pred_to w) (b :: tokens) /\
   length (w_input w) = Nat.min max_window (pred_to w))%nat.

End Rolling.

(* ===================================================================== *)
(** ** [TemplateLM.loglikelihood] *)
(* ===================================================================== *)

(** The abstract members of [TemplateLM] that [loglikelihood] uses
    besides [tok_encode]: the property [eot_token_id], and the method
    [_loglikelihood_tokens(requests, disable_tqdm)]. *)
Class TemplateLM_tokens (token score : Type) : Type := {
  eot_token_id : token;
  _loglikelihood_tokens :
    list ((string * string) * list token * list token) -> bool -> list score
}.

Definition prefix_token_id {token score : Type} `{TemplateLM_tokens token score} : token :=
  eot_token_id.

(** [TemplateLM.loglikelihood]; [requests] are the argument tuples
    [req.args] of the requests, pairs of [str]. *)
Definition TemplateLM_loglikelihood {token score : Type}
    `{TemplateLM token} `{TemplateLM_tokens token score}
    (requests : list (string * string)) (disable_tqdm : bool) : list score :=
  let new_reqs :=
    map (fun '(context, continuation) =>
           let '(context_enc, continuation_enc) :=
             if String.eqb context ""
             then ([prefix_token_id], tok_encode continuation None)
             else _encode_pair context continuation in
           ((context, continuation), context_enc, continuation_enc))
        requests in
  _loglikelihood_tokens new_reqs disable_tqdm.

(** A tokenizer of characters, for a decoder-only model: a token is a
    character, and the end of text is the character 0. *)
Definition char_tokens : TemplateLM ascii :=
  {| AUTO_MODEL_CLASS := Some AutoModelForCausalLM;
     tok_encode := fun s _ => list_ascii_of_string s |}.

(** Scores that are the requests themselves. *)
Definition echo_tokens
  : TemplateLM_tokens ascii ((string * string) * list ascii * list ascii) :=
  {| eot_token_id := "000"%char;
     _loglikelihood_tokens := fun new_reqs _ => new_reqs |}.

(* ===================================================================== *)
(** ** The wrappers [PrefixLM], [SuffixLM] and [CipherLM] *)
(* ===================================================================== *)

Module Wrappers.

(** The exceptions of the wrappers: a failed [assert], a method of [str]
    called on an object that has none, an index past the end, a key that
    a dictionary does not have, a method that the class leaves to its
    subclasses, an operand of the wrong type ([in] on an object that is
    no container, [startswith] of a list), and a tuple unpacked into the
    wrong number of names. *)
Inductive error : Type :=
| AssertionError
| AttributeError
| IndexError
| KeyError
| NotImplementedError
| TypeError
| ValueError.

Inductive result (A : Type) : Type :=
| Ok (a : A)
| Raise (e : error).
Arguments Ok {A} a.
Arguments Raise {A} e.

#[global] Instance result_ret : MRet result := fun A a => Ok a.
#[global] Instance result_bind : MBind result := fun A B f m =>
  match m with
  | Ok a => f a
  | Raise e => Raise e
  end.

(** [text.startswith(prefix)] *)
Definition startswith (text prefix : string) : bool := String.prefix prefix text.

(** [tag in text] for two strings. *)
Fixpoint str_contains (tag text : string) : bool :=
  String.prefix tag text ||
  match text with
  | "" => false
  | String _ text' => str_contains tag text'
  end.

(** [text.replace(old, new)] for an [old] that is not empty: the text is
    read from the left, an occurrence of [old] is replaced, and the
    reading goes on after the occurrence; [skip] counts the characters
    of that occurrence which are still to be passed. *)
Fixpoint replace_from (old new : string) (skip : nat) (text : string) : string :=
  match text with
  | "" => ""
  | String c text' =>
      match skip with
      | S skip' => replace_from old new skip' text'
      | O =>
          if String.prefix old text
          then new +:+ replace_from old new (String.length old - 1)%nat text'
          else String c (replace_from old new 0 text')
      end
  end.

Definition str_replace (old new text : string) : string := replace_from old new 0 text.

(** [v == s] for a string [s]. *)
Definition eq_str (v : pyval) (s : string) : bool :=
  match v with
  | PStr s' => String.eqb s' s
  | _ => false
  end.

(** [tag in text] for a string [tag]: a substring of a [str], an element
    of a list or of a tuple, a key of a dictionary; the other objects
    are no containers. *)
Definition contains (tag : string) (text : pyval) : result bool :=
  match text with
  | PStr s => Ok (str_contains tag s)
  | PList l | PTuple l => Ok (existsb (fun x => eq_str x tag) l)
  | PDict d => Ok (existsb (fun kv => key_eqb kv.1 tag) d)
  | _ => Raise TypeError
  end.

Definition llama_tags : list string :=
  ["<|begin_of_text|>"; "<|start_header_id|>"].

(** The loop [for tag in llama_tags: assert tag not in text]. *)
Fixpoint assert_no_tag (tags : list string) (text : pyval) : result unit :=
  match tags with
  | [] => Ok tt
  | tag :: tags' =>
      found ← contains tag text;
      if found : bool then Raise AssertionError else assert_no_tag tags' text
  end.

(** One of the LLaMA tags occurs in the text. *)
Definition has_tag (text : string) : bool :=
  existsb (fun tag => str_contains tag text) llama_tags.

(** The object is a container in which no LLaMA tag is found. *)
Definition tag_free (text : pyval) : bool :=
  match assert_no_tag llama_tags text with
  | Ok _ => true
  | Raise _ => false
  end.

(** The first argument of a request, when it is a [str]. *)
Definition context_of (req : Instance) : string :=
  match args req with
  | PStr c :: _ => c
  | _ => ""
  end.

(** [d[key]] on a dictionary kept in insertion order, for a key that
    is a [str]. *)
Fixpoint getitem (d : list (pykey * pyval)) (key : string) : result pyval :=
  match d with
  | [] => Raise KeyError
  | (k, v) :: d' => if key_eqb k key then Ok v else getitem d' key
  end.

(** The interface [LM]: the three request methods and the chat
    template, each of which returns or raises. *)
Module LM.

Record t (score rolling_score : Type) : Type := {
  loglikelihood : list Instance -> result (list score);
  loglikelihood_rolling : list Instance -> result (list rolling_score);
  generate_until : list Instance -> result (list string);
  apply_chat_template : list (list (pykey * pyval)) -> result string
}.
Arguments loglikelihood {score rolling_score} _ _.
Arguments loglikelihood_rolling {score rolling_score} _ _.
Arguments generate_until {score rolling_score} _ _.
Arguments apply_chat_template {score rolling_score} _ _.

End LM.

(** [PrefixLM]; [prefix] is the attribute that [__init__] sets, from
    its [path] argument or from the first line of the file there.
    [print] is left out. *)
Module PrefixLM.

Record t (score rolling_score : Type) : Type := {
  base_lm : LM.t score rolling_score;
  prefix : string
}.
Arguments base_lm {score rolling_score} _.
Arguments prefix {score rolling_score} _.

Section Methods.

Context {score rolling_score : Type}.
Implicit Type self : t score rolling_score.

Definition add_prefix self (x : string) : string := prefix self +:+ " " +:+ x.

Definition _safe_prefix self (text : string) : result string :=
  assert_no_tag llama_tags (PStr text);;
  Ok (add_prefix self text).

(** The two lines
    [if not context.startswith(self.prefix): context = self._safe_prefix(context)]
    of the three loops. *)
Definition prefixed self (context : pyval) : result pyval :=
  match context with
  | PStr c =>
      if negb (startswith c (prefix self))
      then c' ← _safe_prefix self c; Ok (PStr c')
      else Ok (PStr c)
  | _ => Raise AttributeError
  end.

Definition loglikelihood self (requests : list Instance) : result (list score) :=
  prefixed_requests ←
    mapM (fun req =>
            match args req with
            | [context; continuation] =>
                context ← prefixed self context;
                Ok {| request_type := request_type req; doc := doc req;
                      arguments := [context; continuation];
                      idx := idx req; metadata := metadata req |}
            | _ => Raise ValueError
            end) requests;
  LM.loglikelihood (base_lm self) prefixed_requests.

Definition loglikelihood_rolling self (requests : list Instance)
  : result (list rolling_score) :=
  prefixed_requests ←
    mapM (fun req =>
            match args req with
            | [context] =>
                context ← prefixed self context;
                Ok {| request_type := request_type req; doc := doc req;
                      arguments := [context];
                      idx := idx req; metadata := metadata req |}
            | _ => Raise ValueError
            end) requests;
  LM.loglikelihood_rolling (base_lm self) prefixed_requests.

Definition generate_until self (requests : list Instance) : result (list string) :=
  prefixed_requests ←
    mapM (fun req =>
            match args req with
            | [context; until] =>
                context ← prefixed self context;
                Ok {| request_type := request_type req; doc := doc req;
                      arguments := [context; until];
                      idx := idx req; metadata := metadata req |}
            | _ => Raise ValueError
            end) requests;
  LM.generate_until (base_lm self) prefixed_requests.

(** A [PrefixLM] is an [LM]: its three request methods, and the chat
    template of the class [LM], which raises. *)
Definition to_LM self : LM.t score rolling_score :=
  {| LM.loglikelihood := loglikelihood self;
     LM.loglikelihood_rolling := loglikelihood_rolling self;
     LM.generate_until := generate_until self;
     LM.apply_chat_template := fun _ => Raise NotImplementedError |}.

(** *** Vocabulary of the statements about [PrefixLM] *)

(** The context that is handed to the base LM for [context]. *)
Definition with_prefix self (context : string) : string :=
  if startswith context (prefix self) then context else add_prefix self context.

(** The request that is handed to the base LM for [req]. *)
Definition prefixed_request self (req : Instance) : Instance :=
  {| request_type := request_type req; doc := doc req;
     arguments := PStr (with_prefix self (context_of req)) :: tail (args req);
     idx := idx req; metadata := metadata req |}.

(** The request has [n] arguments, the first of them a [str] that
    starts with the prefix or has no LLaMA tag in it. *)
Definition accepted self (n : nat) (req : Instance) : bool :=
  match args req with
  | PStr c :: rest =>
      (length (args req) =? n)%nat && (startswith c (prefix self) || negb (has_tag c))
  | _ => false
  end.

(** The exception of a request that is not accepted. *)
Definition rejection (n : nat) (req : Instance) : error :=
  if negb (length (args req) =? n)%nat then ValueError
  else match args req with
       | PStr _ :: _ => AssertionError
       | _ => AttributeError
       end.

End Methods.

End PrefixLM.

(** [SuffixLM]; [suffix] is the attribute that [__init__] sets: the first
    line of the file at [path], a [str], when txt occurs in the path, and
    else the list of the lines of the file, when .csv occurs in it (for
    another path [__init__] sets no suffix, and there is nothing to
    model).  [print] is left out. *)
Module SuffixLM.

Inductive suffix_attr : Type :=
| Line (s : string)
| Lines (l : list string).

Record t (score rolling_score : Type) : Type := {
  base_lm : LM.t score rolling_score;
  suffix : suffix_attr
}.
Arguments base_lm {score rolling_score} _.
Arguments suffix {score rolling_score} _.

(** The text of a question followed by its answer line, the string that
    [_safe_suffix] replaces and [loglikelihood] looks for, and the
    string that [loglikelihood_rolling] looks for. *)
Definition question_answer : string := String "?" (String "010" "A.").
Definition question_answer_spaced : string := String "?" (String " " (String "010" "A. ")).

Section Methods.

Context {score rolling_score : Type}.
Implicit Type self : t score rolling_score.

(** [self.suffix[0]]: the first character of a [str], the first line of
    a list. *)
Definition suffix_0 self : result string :=
  match suffix self with
  | Line "" => Raise IndexError
  | Line (String c _) => Ok (String c "")
  | Lines [] => Raise IndexError
  | Lines (s :: _) => Ok s
  end.

Definition _safe_suffix self (text : pyval) : result pyval :=
  assert_no_tag llama_tags text;;
  match text with
  | PStr s =>
      suffix_0 ← suffix_0 self;
      let modified_text := str_replace question_answer (suffix_0 +:+ question_answer) s in
      Ok (PStr modified_text)
  | _ => Raise AttributeError
  end.

Definition loglikelihood self (requests : list Instance) : result (list score) :=
  suffixed_requests ←
    mapM (fun req =>
            match args req with
            | [context; continuation] =>
                found ← contains question_answer context;
                context ← (if found : bool then _safe_suffix self context else Ok context);
                Ok {| request_type := request_type req; doc := doc req;
                      arguments := [context; continuation];
                      idx := idx req; metadata := metadata req |}
            | _ => Raise ValueError
            end) requests;
  LM.loglikelihood (base_lm self) suffixed_requests.

Definition loglikelihood_rolling self (requests : list Instance)
  : result (list rolling_score) :=
  suffixed_requests ←
    mapM (fun req =>
            match args req with
            | [context] =>
                found ← contains question_answer_spaced context;
                context ← (if found : bool then _safe_suffix self context else Ok context);
                Ok {| request_type := request_type req; doc := doc req;
                      arguments := [context];
                      idx := idx req; metadata := metadata req |}
            | _ => Raise ValueError
            end) requests;
  LM.loglikelihood_rolling (base_lm self) suffixed_requests.

(** [context.startswith(self.suffix)]: a method of [str], whose argument
    is a [str] (or a tuple, which [suffix] never is). *)
Definition starts_with_suffix self (context : pyval) : result bool :=
  match context with
  | PStr c =>
      match suffix self with
      | Line s => Ok (startswith c s)
      | Lines _ => Raise TypeError
      end
  | _ => Raise AttributeError
  end.

Definition generate_until self (requests : list Instance) : result (list string) :=
  suffixed_requests ←
    mapM (fun req =>
            match args req with
            | [context; until] =>
                starts ← starts_with_suffix self context;
                context ← (if negb starts then _safe_suffix self context else Ok context);
                Ok {| request_type := request_type req; doc := doc req;
                      arguments := [context; until];
                      idx := idx req; metadata := metadata req |}
            | _ => Raise ValueError
            end) requests;
  LM.generate_until (base_lm self) suffixed_requests.

(** *** Vocabulary of the statements about [SuffixLM] *)

(** The context that [loglikelihood] hands to the base LM for a context
    that is a [str], when the first element of the suffix is [suffix_0]. *)
Definition with_suffix (suffix_0 context : string) : string :=
  if str_contains question_answer context
  then str_replace question_answer (suffix_0 +:+ question_answer) context
  else context.

(** The request that [loglikelihood] hands to the base LM for [req]. *)
Definition suffixed_request (suffix_0 : string) (req : Instance) : Instance :=
  {| request_type := request_type req; doc := doc req;
     arguments := PStr (with_suffix suffix_0 (context_of req)) :: tail (args req);
     idx := idx req; metadata := metadata req |}.

End Methods.

End SuffixLM.

(** [CipherLM] *)
Module CipherLM.

Record t (score rolling_score : Type) : Type := {
  base_lm : LM.t score rolling_score;
  encrypt : pyval -> pyval;
  decrypt : string -> string;
  path : string
}.
Arguments base_lm {score rolling_score} _.
Arguments encrypt {score rolling_score} _.
Arguments decrypt {score rolling_score} _.
Arguments path {score rolling_score} _.

Section Methods.

Context {score rolling_score : Type}.
Implicit Type self : t score rolling_score.

(** [self.encrypt] is set to a function that returns the text x, not to
    the argument [encrypt]. *)
Definition __init__ (base_lm : LM.t score rolling_score) (encrypt : pyval -> pyval)
    (decrypt : string -> string) (path : string) : t score rolling_score :=
  {| base_lm := base_lm; encrypt := fun x => PStr "x"; decrypt := decrypt; path := path |}.

Definition _safe_encrypt self (text : pyval) : result pyval :=
  assert_no_tag llama_tags text;;
  Ok (encrypt self text).

Definition _safe_decrypt self (text : string) : result string :=
  assert_no_tag llama_tags (PStr text);;
  Ok (decrypt self text).

Definition loglikelihood self (requests : list Instance) : result (list score) :=
  encrypted_requests ←
    mapM (fun req =>
            match args req with
            | [context; continuation] =>
                encrypted_continuation ← _safe_encrypt self continuation;
                Ok {| request_type := request_type req; doc := doc req;
                      arguments := [context; encrypted_continuation];
                      idx := idx req; metadata := metadata req |}
            | _ => Raise ValueError
            end) requests;
  LM.loglikelihood (base_lm self) encrypted_requests.

Definition loglikelihood_rolling self (requests : list Instance)
  : result (list rolling_score) :=
  encrypted_requests ←
    mapM (fun req =>
            match args req with
            | [context] =>
                encrypted_context ← _safe_encrypt self context;
                Ok {| request_type := request_type req; doc := doc req;
                      arguments := [encrypted_context];
                      idx := idx req; metadata := metadata req |}
            | _ => Raise ValueError
            end) requests;
  LM.loglikelihood_rolling (base_lm self) encrypted_requests.

Definition generate_until self (requests : list Instance) : result (list string) :=
  results ← LM.generate_until (base_lm self) requests;
  mapM (_safe_decrypt self) results.

Definition apply_chat_template self (chat_history : list (list (pykey * pyval)))
  : result string :=
  encrypted_chat_history ←
    mapM (fun message =>
            role ← getitem message "role";
            content ←
              (role' ← getitem message "role";
               if eq_str role' "system"
               then getitem message "content"
               else content ← getitem message "content"; _safe_encrypt self content);
            Ok [(KStr "role", role); (KStr "content", content)]) chat_history;
  LM.apply_chat_template (base_lm self) encrypted_chat_history.

(** *** Vocabulary of the statements about [CipherLM] *)

(** The request has [n] arguments, the last of them a container in
    which no LLaMA tag is found. *)
Definition accepted (n : nat) (req : Instance) : bool :=
  (length (args req) =? n)%nat &&
  match last (args req) with
  | Some text => tag_free text
  | None => false
  end.

(** The request with [text] as its last argument. *)
Definition with_last (req : Instance) (text : pyval) : Instance :=
  {| request_type := request_type req; doc := doc req;
     arguments := removelast (args req) ++ [text];
     idx := idx req; metadata := metadata req |}.

(** The message is one that [apply_chat_template] takes: it has a role
    and a content, in which no LLaMA tag is found unless the role is
    system. *)
Definition accepted_message (message : list (pykey * pyval)) : bool :=
  match getitem message "role", getitem message "content" with
  | Ok role, Ok content => eq_str role "system" || tag_free content
  | _, _ => false
  end.

(** The message that is handed to the base LM for [message]. *)
Definition encrypted_message (message : list (pykey * pyval))
  : list (pykey * pyval) :=
  let role := dict_get message "role" PNone in
  [(KStr "role", role);
   (KStr "content", if eq_str role "system" then dict_get message "content" PNone
                    else PStr "x")].

End Methods.

End CipherLM.

End Wrappers.

(** An LM that answers with the requests it is given, and generates the
    first argument of each request. *)
Definition echo_lm : Wrappers.LM.t Instance Instance :=
  {| Wrappers.LM.loglikelihood := fun requests => Wrappers.Ok requests;
     Wrappers.LM.loglikelihood_rolling := fun requests => Wrappers.Ok requests;
     Wrappers.LM.generate_until := fun requests =>
       Wrappers.Ok (map Wrappers.context_of requests);
     Wrappers.LM.apply_chat_template := fun chat_history =>
       Wrappers.Ok (Json.dumps (PList (map PDict chat_history))) |}.

(** A [PrefixLM], a [CipherLM] and a [SuffixLM] around [echo_lm], and
    requests for them. *)
Definition truthful : Wrappers.PrefixLM.t Instance Instance :=
  {| Wrappers.PrefixLM.base_lm := echo_lm; Wrappers.PrefixLM.prefix := "Answer truthfully." |}.

Definition req_tagged : Instance :=
  mk_request "loglikelihood" [PStr "<|begin_of_text|>a"; PStr "b"] 3.

Definition req_prefixed : Instance :=
  mk_request "loglikelihood" [PStr "Answer truthfully. a"; PStr "b"] 4.

Definition ciphered : Wrappers.CipherLM.t Instance Instance :=
  Wrappers.CipherLM.__init__ echo_lm (fun text => text) (fun text => text +:+ "!") "".

Definition csv_suffixed : Wrappers.SuffixLM.t Instance Instance :=
  {| Wrappers.SuffixLM.base_lm := echo_lm;
     Wrappers.SuffixLM.suffix := Wrappers.SuffixLM.Lines ["Think."; "Step by step."] |}.

Definition req_spaced : Instance :=
  mk_request "loglikelihood_rolling"
    [PStr ("Is it so" +:+ Wrappers.SuffixLM.question_answer_spaced +:+ "Yes")] 0.

Definition req_question : Instance :=
  mk_request "loglikelihood"
    [PStr ("Is it so" +:+ Wrappers.SuffixLM.question_answer +:+ " Yes"); PStr " indeed"] 0.

(* ===================================================================== *)
(** * Properties *)
(* ===================================================================== *)

Local Close Scope N_scope.

(* ===================================================================== *)
(** ** Strings *)
(* ===================================================================== *)

Lemma app_String c s1 s2 : String c s1 +:+ s2 = String c (s1 +:+ s2).
Proof. reflexivity. Qed.

Lemma app_empty_l s : "" +:+ s = s.
Proof. reflexivity. Qed.

Lemma string_app_assoc s1 s2 s3 : (s1 +:+ s2) +:+ s3 = s1 +:+ (s2 +:+ s3).
Proof. induction s1 as [|c s1 IH]; [done|]. by rewrite !app_String, IH. Qed.

Lemma app_empty_r s : s +:+ "" = s.
Proof. induction s as [|c s IH]; [done|]. by rewrite app_String, IH. Qed.

Lemma string_length_app s1 s2 :
  String.length (s1 +:+ s2) = String.length s1 + String.length s2.
Proof. induction s1 as [|c s1 IH]; [done|]. rewrite app_String. simpl. by rewrite IH. Qed.


(* ===================================================================== *)
(** ** Which values [json.dumps] writes differently *)
(* ===================================================================== *)

Module JsonFacts.
Import Json.






(** Integers *)

Lemma all_digits_uint d : all_digits (NilEmpty.string_of_uint d) = true.
Proof. induction d; simpl; by rewrite ?IHd. Qed.


Lemma int_repr_shape z :
  exists ds, ds <> "" /\ all_digits ds = true /\
    (int_repr z = ds \/ int_repr z = String "-" ds).
Proof.
  unfold int_repr. destruct z as [|p|p]; simpl.
  - exists "0". auto.
  - exists (NilEmpty.string_of_uint (Pos.to_uint p)).
    pose proof (Unsigned.to_uint_nonnil p) as Hnil.
    split; [by destruct (Pos.to_uint p)|]. split; [apply all_digits_uint|].
    left. unfold NilZero.string_of_uint. by destruct (Pos.to_uint p).
  - exists (NilEmpty.string_of_uint (Pos.to_uint p)).
    pose proof (Unsigned.to_uint_nonnil p) as Hnil.
    split; [by destruct (Pos.to_uint p)|]. split; [apply all_digits_uint|].
    right. unfold NilZero.string_of_uint. by destruct (Pos.to_uint p).
Qed.



(** Induction on values, through the lists that nest them. *)
Lemma pyval_ind (P : pyval -> Prop) :
  P PNone -> (forall b, P (PBool b)) -> (forall z, P (PInt z)) ->
  (forall s, P (PStr s)) ->
  (forall l, Forall P l -> P (PList l)) ->
  (forall l, Forall P l -> P (PTuple l)) ->
  (forall d, Forall (fun kv => P kv.2) d -> P (PDict d)) ->
  forall v, P v.
Proof.
  intros HNone HBool HInt HStr HList HTuple HDict.
  fix IH 1. intros [|b|z|s|l|l|d].
  - exact HNone.
  - apply HBool.
  - apply HInt.
  - apply HStr.
  - apply HList. induction l as [|v l IHl]; constructor; [apply IH|exact IHl].
  - apply HTuple. induction l as [|v l IHl]; constructor; [apply IH|exact IHl].
  - apply HDict. induction d as [|[k v] d IHd]; constructor; [apply IH|exact IHd].
Qed.

























End JsonFacts.

(* ===================================================================== *)
(** ** The fingerprint *)
(* ===================================================================== *)







(** The digests [hashlib] gives for the empty message, for abc, and for
    messages of 55, 56 and 64 bytes, which end at the three places
    where the padding changes shape. *)
Lemma sha256_known_answers :
  Sha256.hexdigest (Sha256.sha256 (encode_utf8 ""))
    = "e3b0c44298fc1c149afbf4c8996fb92427ae41e4649b934ca495991b7852b855" /\
  Sha256.hexdigest (Sha256.sha256 (encode_utf8 "abc"))
    = "ba7816bf8f01cfea414140de5dae2223b00361a396177a9cb410ff61f20015ad" /\
  Sha256.hexdigest (Sha256.sha256 (repeat 97%N 55))
    = "9f4390f8d30c2dd92ec9f095b65e2b9ae9b0a925a5258e241c9f1e910f734318" /\
  Sha256.hexdigest (Sha256.sha256 (repeat 97%N 56))
    = "b35439a4ac6f0948b6d6f9e3c6af0f5f590ce20f1bde7090ef7970686ec6738a" /\
  Sha256.hexdigest (Sha256.sha256 (repeat 97%N 64))
    = "ffe054fe7ae0cb6dc65c3af9b61d5209f439851db43d0ba5997337df154668eb".
Proof.
  vm_compute. split; [reflexivity|]. split; [reflexivity|]. split; [reflexivity|].
  split; reflexivity.
Qed.

(** The digests [hashlib] and [json] give for two requests with a
    dictionary of generation arguments. *)
Lemma hash_args_known_answers :
  hash_args "generate_until" [PStr "ctx"; PDict [(KStr "do_sample", PBool true)]]
    = "e7c34047b8427fbe363c183c700592ed9cc2748930af34d094c2fd337c6aba8d" /\
  hash_args "generate_until"
    [PStr "q";
     PDict [(KStr "until", PList [PStr (String "010"%char "")]); (KStr "do_sample", PBool false);
            (KStr "max_gen_toks", PInt 16); (KStr "x", PNone); (KStr "n", PInt (-5))]]
    = "de5afd492fd8f46500e5b60795f31ed915bd4a34f201723b51392eb5e5c5e679".
Proof.
  vm_compute. split; reflexivity.
Qed.



(* ===================================================================== *)
(** ** The caching wrapper *)
(* ===================================================================== *)

Section CachingFacts.

Context {R : Type}.
#[local] Opaque hash_args.

#[local] Abbreviation table := (gmap string (pyobj R)).
#[local] Abbreviation disk := (gmap string (gmap string (pyobj R))).

Implicit Types (db : table) (d : disk) (attr : string) (req : Instance)
  (requests : list Instance) (self : @CachingLM R).

Lemma check_request_cases db attr req ob miss :
  check_request db attr req = Ok (ob, miss) ->
  ob = slot_of db attr req /\
  ((is_miss db attr req = true /\ miss = Some req /\ ob = PyNone) \/
   (is_miss db attr req = false /\ miss = None /\ is_None ob = false /\
    sampling attr req = false /\
    db !! hash_args attr (args req) = Some ob)).
Proof.
  unfold check_request, slot_of, is_miss, sampling.
  destruct (do_sample attr req) as [[|]|e]; simpl; try discriminate.
  - intros [= <- <-]. auto.
  - destruct (db !! hash_args attr (args req)) as [ob'|] eqn:Hdb; simpl.
    + destruct (is_None ob') eqn:Hn; [discriminate|].
      intros [= <- <-]. split; [done|]. right. auto.
    + intros [= <- <-]. auto.
Qed.

Lemma check_loop_acc db attr requests res0 rem0 :
  check_loop db attr requests res0 rem0 =
  match check_loop db attr requests [] [] with
  | Ok (res, rem) => Ok (res0 ++ res, rem0 ++ rem)
  | Raise e => Raise e
  end.
Proof.
  revert res0 rem0.
  induction requests as [|req requests IH]; intros res0 rem0; simpl.
  - by rewrite !app_nil_r.
  - destruct (check_request db attr req) as [[ob miss]|e]; simpl; [|done].
    rewrite IH. rewrite (IH [ob]).
    destruct (check_loop db attr requests [] []) as [[res rem]|e]; [|done].
    destruct miss; by rewrite <- !app_assoc.
Qed.

Lemma check_loop_ok db attr requests res rem :
  check_loop db attr requests [] [] = Ok (res, rem) ->
  res = map (slot_of db attr) requests /\
  rem = List.filter (is_miss db attr) requests /\
  Forall (fun req => is_miss db attr req = false ->
                     is_None (slot_of db attr req) = false /\
                     sampling attr req = false /\
                     db !! hash_args attr (args req) = Some (slot_of db attr req))
         requests /\
  Forall (fun req => exists b, do_sample attr req = Ok b) requests.
Proof.
  revert res rem.
  induction requests as [|req requests IH]; intros res rem; simpl.
  - intros [= <- <-]. auto.
  - destruct (check_request db attr req) as [[ob miss]|e] eqn:Hreq; simpl; [|done].
    rewrite check_loop_acc.
    destruct (check_loop db attr requests [] []) as [[res' rem']|e] eqn:Hloop; [|done].
    intros [= <- <-].
    destruct (IH _ _ eq_refl) as (-> & -> & Hhit & Hs).
    assert (exists b, do_sample attr req = Ok b) as Hb.
    { unfold check_request in Hreq. destruct (do_sample attr req); [eauto|done]. }
    apply check_request_cases in Hreq as [-> [(Hm & -> & Hn)|(Hm & -> & Hn & Hs' & Hdb)]];
      rewrite Hm; (split; [done|]); (split; [done|]); (split; [|by constructor]);
      constructor; try done.
    rewrite Hm. done.
Qed.

Lemma check_request_total db attr req b :
  do_sample attr req = Ok b ->
  (sampling attr req = false -> db !! hash_args attr (args req) <> Some PyNone) ->
  check_request db attr req =
  Ok (slot_of db attr req, if is_miss db attr req then Some req else None).
Proof.
  unfold check_request, slot_of, is_miss, sampling. intros -> Hnn. simpl.
  destruct b; simpl; [done|].
  destruct (db !! hash_args attr (args req)) as [[|r]|]; simpl; try done.
  by destruct Hnn.
Qed.

Lemma check_loop_total db attr requests :
  Forall (fun req => exists b, do_sample attr req = Ok b) requests ->
  Forall (fun req => sampling attr req = false ->
                     db !! hash_args attr (args req) <> Some PyNone) requests ->
  check_loop db attr requests [] [] =
  Ok (map (slot_of db attr) requests, List.filter (is_miss db attr) requests).
Proof.
  induction 1 as [|req requests [b Hb] _ IH]; intros Hnn; [done|].
  apply Forall_cons in Hnn as [Hreq Hnn].
  simpl. rewrite (check_request_total _ _ _ _ Hb Hreq). simpl.
  rewrite check_loop_acc, (IH Hnn).
  by destruct (is_miss db attr req).
Qed.

(** The second loop. *)

Lemma skip_filled_ok (slots : list (pyobj R)) p p' :
  skip_filled slots p = Ok p' ->
  exists filled rest,
    slots = filled ++ PyNone :: rest /\ p' = p + length filled /\
    Forall (fun ob => is_None ob = false) filled.
Proof.
  revert p. induction slots as [|ob slots IH]; intros p; simpl; [done|].
  destruct ob as [|r]; simpl.
  - intros [= <-]. exists [], slots. rewrite Nat.add_0_r. auto.
  - intros (filled & rest & -> & -> & Hf)%IH.
    exists (PyObj r :: filled), rest. simpl. split; [done|]. split; [lia|].
    by constructor.
Qed.

Lemma skip_filled_total (slots : list (pyobj R)) p :
  0 < count_None slots -> exists p', skip_filled slots p = Ok p'.
Proof.
  unfold count_None. revert p.
  induction slots as [|[|r] slots IH]; intros p; simpl; [lia|eauto|].
  intros H. by apply IH.
Qed.

Lemma count_None_app (l1 l2 : list (pyobj R)) :
  count_None (l1 ++ l2) = count_None l1 + count_None l2.
Proof. unfold count_None. by rewrite List.filter_app, length_app. Qed.

Lemma count_None_filled (l : list (pyobj R)) :
  Forall (fun ob => is_None ob = false) l -> count_None l = 0.
Proof.
  unfold count_None. induction 1 as [|ob l Hob _ IH]; simpl; [done|].
  by rewrite Hob.
Qed.

Lemma fill_filled (filled slots rs : list (pyobj R)) :
  Forall (fun ob => is_None ob = false) filled ->
  fill (filled ++ slots) rs = filled ++ fill slots rs.
Proof.
  induction 1 as [|ob l Hob _ IH]; simpl; [done|]. by rewrite Hob, IH.
Qed.

Lemma merge_loop_writes self attr pairs res p d res' d' :
  merge_loop self attr pairs res p d = Ok (res', d') ->
  d' = cache_writes self attr pairs d /\ length res' = length res /\
  forall i ob, res !! i = Some ob -> is_None ob = false -> res' !! i = Some ob.
Proof.
  revert res p d.
  induction pairs as [|[req r] pairs IH]; intros res p d; simpl.
  - intros [= <- <-]. auto.
  - destruct (skip_filled (drop p res) p) as [p'|e] eqn:Hskip; simpl; [|done].
    intros (-> & Hlen & Hkeep)%IH. split; [done|].
    rewrite length_insert in Hlen. split; [done|].
    intros i ob Hi Hob. apply Hkeep; [|done].
    apply skip_filled_ok in Hskip as (filled & rest & Hdrop & -> & Hf).
    rewrite list_lookup_insert_ne; [done|].
    intros <-.
    assert (drop p res !! length filled = Some PyNone) as Hl.
    { rewrite Hdrop. by rewrite list_lookup_middle. }
    rewrite lookup_drop in Hl. rewrite Hi in Hl. by injection Hl as ->.
Qed.

Lemma merge_loop_total self attr pairs pre suf d :
  length pairs <= count_None suf ->
  exists res', merge_loop self attr pairs (pre ++ suf) (length pre) d =
               Ok (res', cache_writes self attr pairs d).
Proof.
  revert pre suf d.
  induction pairs as [|[req r] pairs IH]; intros pre suf d Hn; simpl; [eauto|]. simpl in Hn.
  rewrite drop_app_length.
  destruct (skip_filled_total suf (length pre)) as [p' Hp']; [lia|].
  rewrite Hp'. simpl.
  apply skip_filled_ok in Hp' as (filled & rest & -> & -> & Hf).
  rewrite count_None_app, (count_None_filled _ Hf) in Hn.
  rewrite app_assoc, <- length_app.
  rewrite (insert_app_r_alt _ _ (length (pre ++ filled))) by lia.
  rewrite Nat.sub_diag. simpl.
  apply (IH (pre ++ filled) (r :: rest)).
  change (PyNone :: rest) with ([@PyNone R] ++ rest) in Hn.
  change (r :: rest) with ([r] ++ rest).
  rewrite count_None_app in *. unfold count_None at 1 in Hn. simpl in Hn. lia.
Qed.

Lemma fill_nil (slots : list (pyobj R)) : fill slots [] = slots.
Proof. induction slots as [|[|r] slots IH]; simpl; by rewrite ?IH. Qed.

Lemma merge_loop_fill self attr pairs pre suf d :
  Forall (fun r => is_None r = false) pairs.*2 ->
  length pairs <= count_None suf ->
  merge_loop self attr pairs (pre ++ suf) (length pre) d =
  Ok (pre ++ fill suf pairs.*2, cache_writes self attr pairs d).
Proof.
  revert pre suf d.
  induction pairs as [|[req r] pairs IH]; intros pre suf d Hr Hn.
  - simpl. by rewrite fill_nil.
  - rewrite fmap_cons in Hr. apply Forall_cons in Hr as [Hr Hrs].
    cbn [snd] in Hr. cbn [length] in Hn.
    cbn [merge_loop]. rewrite drop_app_length.
    destruct (skip_filled_total suf (length pre)) as [p' Hp']; [lia|].
    rewrite Hp'. cbn [mbind outcome_bind].
    apply skip_filled_ok in Hp' as (filled & rest & -> & -> & Hf).
    rewrite count_None_app, (count_None_filled _ Hf) in Hn.
    rewrite app_assoc, <- length_app.
    rewrite (insert_app_r_alt _ _ (length (pre ++ filled))) by lia.
    rewrite Nat.sub_diag. cbn [list_insert insert].
    assert (length pairs <= count_None (r :: rest)) as Hn'.
    { change (PyNone :: rest) with ([@PyNone R] ++ rest) in Hn.
      change (r :: rest) with ([r] ++ rest).
      rewrite count_None_app in *. unfold count_None at 1 in Hn. simpl in Hn. lia. }
    rewrite (IH (pre ++ filled) (r :: rest) _ Hrs Hn').
    rewrite fmap_cons. cbn [snd fst fill cache_writes foldl].
    rewrite Hr, (fill_filled _ _ _ Hf). cbn [fill is_None].
    by rewrite <- app_assoc.
Qed.

(** Lookups after the writes. *)

Lemma dbdict_set_lookup path key (v : pyobj R) d k :
  (dbdict_set path key v d !!! path) !! k =
  if decide (key = k) then Some v else (d !!! path) !! k.
Proof.
  unfold dbdict_set. rewrite lookup_total_insert_eq.
  case_decide as Hk.
  - subst. by rewrite lookup_insert_eq.
  - by rewrite lookup_insert_ne.
Qed.

Lemma dbdict_set_lookup_other path path' key (v : pyobj R) d :
  path <> path' -> dbdict_set path key v d !!! path' = d !!! path'.
Proof. intros Hp. unfold dbdict_set. by rewrite lookup_total_insert_ne. Qed.

Lemma cache_writes_cons self attr req (r : pyobj R) pairs d :
  cache_writes self attr ((req, r) :: pairs) d =
  cache_writes self attr pairs
    (dbdict_set (cache_db self) (hash_args attr (args req)) r d).
Proof. reflexivity. Qed.

Lemma cache_writes_lookup_ne self attr pairs d k :
  Forall (fun p : Instance * pyobj R => hash_args attr (args p.1) <> k) pairs ->
  (cache_writes self attr pairs d !!! cache_db self) !! k = (d !!! cache_db self) !! k.
Proof.
  revert d. induction pairs as [|[req r] pairs IH]; intros d Hne; [done|].
  apply Forall_cons in Hne as [Hp Hne]. rewrite cache_writes_cons, (IH _ Hne).
  rewrite dbdict_set_lookup. by rewrite decide_False.
Qed.

Lemma cache_writes_lookup_eq self attr pairs d k (v : pyobj R) :
  Forall (fun p : Instance * pyobj R => hash_args attr (args p.1) = k -> p.2 = v) pairs ->
  Exists (fun p : Instance * pyobj R => hash_args attr (args p.1) = k) pairs \/
    (d !!! cache_db self) !! k = Some v ->
  (cache_writes self attr pairs d !!! cache_db self) !! k = Some v.
Proof.
  revert d. induction pairs as [|[req r] pairs IH]; intros d Hv Hex.
  - destruct Hex as [Hex|Hd]; [by apply Exists_nil in Hex|done].
  - apply Forall_cons in Hv as [Hp Hv]. rewrite cache_writes_cons.
    apply (IH _ Hv). rewrite dbdict_set_lookup. simpl in *.
    destruct (decide (hash_args attr (args req) = k)) as [Hk|Hk].
    + right. by rewrite (Hp Hk).
    + destruct Hex as [Hex|Hd]; [|by right].
      apply Exists_cons in Hex as [Hex|Hex]; [done|by left].
Qed.

Lemma cache_writes_other self attr pairs d path :
  path <> cache_db self ->
  cache_writes self attr pairs d !!! path = (d !!! path : gmap string (pyobj R)).
Proof.
  intros Hp. revert d. induction pairs as [|[req r] pairs IH]; intros d; [done|].
  rewrite cache_writes_cons, IH. by apply dbdict_set_lookup_other.
Qed.

(** The slots after the second loop, position by position. *)

Lemma filter_lookup_take {A : Type} (f : A -> bool) (l : list A) i x :
  l !! i = Some x -> f x = true ->
  List.filter f l !! length (List.filter f (take i l)) = Some x.
Proof.
  revert i. induction l as [|y l IH]; intros [|i]; simpl; try done.
  - intros [= ->] ->. done.
  - intros Hi Hx. destruct (f y); simpl; by apply IH.
Qed.

Lemma count_None_slots db attr requests :
  Forall (fun req => is_miss db attr req = false ->
                     is_None (slot_of db attr req) = false) requests ->
  count_None (map (slot_of db attr) requests) =
  length (List.filter (is_miss db attr) requests).
Proof.
  unfold count_None.
  induction 1 as [|req requests Hreq _ IH]; simpl; [done|].
  unfold slot_of at 1. destruct (is_miss db attr req) eqn:Hm; simpl.
  - by rewrite IH.
  - unfold slot_of in Hreq. rewrite Hm in Hreq. by rewrite (Hreq eq_refl).
Qed.

Lemma fill_slots_lookup db attr requests rs i req :
  Forall (fun req => is_miss db attr req = false ->
                     is_None (slot_of db attr req) = false) requests ->
  length (List.filter (is_miss db attr) requests) <= length rs ->
  requests !! i = Some req ->
  fill (map (slot_of db attr) requests) rs !! i =
  if is_miss db attr req
  then rs !! length (List.filter (is_miss db attr) (take i requests))
  else Some (slot_of db attr req).
Proof.
  intros Hhit. revert rs i.
  induction Hhit as [|req0 requests Hreq _ IH]; intros rs i Hlen Hi; [done|].
  simpl in Hlen. cbn [map fill].
  destruct (is_miss db attr req0) eqn:Hm0.
  - unfold slot_of at 1. rewrite Hm0. cbn [is_None].
    destruct rs as [|r rs]; [simpl in Hlen; lia|]. simpl in Hlen.
    destruct i as [|i]; simpl in Hi.
    + injection Hi as <-. by rewrite Hm0.
    + simpl. rewrite Hm0. simpl. apply IH; [lia|done].
  - rewrite (Hreq eq_refl).
    destruct i as [|i]; simpl in Hi.
    + injection Hi as <-. by rewrite Hm0.
    + simpl. rewrite Hm0. by apply IH.
Qed.

(** [fn] in two steps. *)

Lemma fn_inv self attr requests d results d' :
  fn self attr requests d = Ok (results, d') ->
  let db := d !!! cache_db self in
  let rem := List.filter (is_miss db attr) requests in
  check_loop db attr requests [] [] = Ok (map (slot_of db attr) requests, rem) /\
  remaining self attr requests d = Ok rem /\
  merge_loop self attr (zip rem (lm self attr rem d).1)
    (map (slot_of db attr) requests) 0 (lm self attr rem d).2 = Ok (results, d').
Proof.
  intros Hfn. cbv zeta. unfold fn, remaining in *. revert Hfn.
  destruct (check_loop (d !!! cache_db self) attr requests [] [])
    as [[res rem]|e] eqn:Hloop; [|done].
  destruct (check_loop_ok _ _ _ _ _ Hloop) as (-> & -> & _).
  simpl. intros Hfn. split; [done|]. split; [done|].
  by destruct (lm self attr _ d).
Qed.

Lemma fn_total self attr requests d rem :
  remaining self attr requests d = Ok rem ->
  exists results,
    fn self attr requests d =
    Ok (results, cache_writes self attr (zip rem (lm self attr rem d).1)
                   (lm self attr rem d).2).
Proof.
  unfold fn, remaining.
  destruct (check_loop (d !!! cache_db self) attr requests [] [])
    as [[res rem']|e] eqn:Hloop; [|done].
  simpl. intros [= ->].
  destruct (check_loop_ok _ _ _ _ _ Hloop) as (-> & Hrem & Hhit & _).
  destruct (lm self attr rem d) as [rem_res d1]. simpl.
  destruct (merge_loop_total self attr (zip rem rem_res) []
              (map (slot_of (d !!! cache_db self) attr) requests) d1)
    as [res' Hres'].
  { rewrite count_None_slots, <- Hrem.
    - rewrite length_zip_with. lia.
    - eapply Forall_impl; [exact Hhit|]. intros req Hq Hm. by destruct (Hq Hm). }
  exists res'. exact Hres'.
Qed.

Lemma is_None_false (ob : pyobj R) : is_None ob = false <-> ob <> PyNone.
Proof. destruct ob; simpl; split; congruence. Qed.

Lemma hits_not_None db attr requests :
  Forall (fun req => is_miss db attr req = false ->
                     is_None (slot_of db attr req) = false /\
                     sampling attr req = false /\
                     db !! hash_args attr (args req) = Some (slot_of db attr req))
         requests ->
  Forall (fun req => is_miss db attr req = false ->
                     is_None (slot_of db attr req) = false) requests.
Proof.
  intros H. eapply Forall_impl; [exact H|]. intros req Hq Hm. by destruct (Hq Hm).
Qed.

Lemma merge_loop_fill0 self attr pairs slots d :
  Forall (fun r => is_None r = false) pairs.*2 ->
  length pairs <= count_None slots ->
  merge_loop self attr pairs slots 0 d =
  Ok (fill slots pairs.*2, cache_writes self attr pairs d).
Proof. exact (merge_loop_fill self attr pairs [] slots d). Qed.

Lemma length_fill (slots rs : list (pyobj R)) : length (fill slots rs) = length slots.
Proof.
  revert rs. induction slots as [|[|r] slots IH]; intros rs; simpl; [done| |by rewrite IH].
  destruct rs; simpl; by rewrite ?IH.
Qed.

(** C1 (as amended): when [fn] returns and the backend answers the
    requests it is given with as many results, none of them [None], the
    returned sequence is as long as the batch, and position [i] holds
    the result of request [i]: the stored value under its fingerprint
    when the request is served from the cache, and otherwise the
    backend's result number [j], where [j] counts the requests before
    [i] that were handed to the backend, the request being number [j] of
    those handed to the backend.  Hits and misses so keep their order. *)
Theorem fn_results_aligned self attr requests d results d' :
  fn self attr requests d = Ok (results, d') ->
  let db := d !!! cache_db self in
  let remaining_reqs := List.filter (is_miss db attr) requests in
  let rem_res := (lm self attr remaining_reqs d).1 in
  length rem_res = length remaining_reqs ->
  Forall (fun r => r <> PyNone) rem_res ->
  remaining self attr requests d = Ok remaining_reqs /\
  length results = length requests /\
  forall i req, requests !! i = Some req ->
    if is_miss db attr req
    then let j := length (List.filter (is_miss db attr) (take i requests)) in
         remaining_reqs !! j = Some req /\ results !! i = rem_res !! j
    else results !! i = db !! hash_args attr (args req).
Proof.
  intros Hfn db remaining_reqs rem_res Hlen Hnn.
  destruct (fn_inv _ _ _ _ _ _ Hfn) as (Hloop & Hrem & Hmerge).
  fold db remaining_reqs in Hloop, Hrem, Hmerge. fold rem_res in Hmerge.
  destruct (check_loop_ok _ _ _ _ _ Hloop) as (_ & _ & Hhit & _).
  pose proof (hits_not_None _ _ _ Hhit) as Hhit'.
  assert ((zip remaining_reqs rem_res).*2 = rem_res) as Hsnd.
  { apply snd_zip. lia. }
  rewrite merge_loop_fill0 in Hmerge.
  - injection Hmerge as <- _. rewrite Hsnd.
    split; [done|]. split; [by rewrite length_fill, length_map|].
    intros i req Hi.
    assert (length (List.filter (is_miss db attr) requests) <= length rem_res) as Hle.
    { fold remaining_reqs. lia. }
    rewrite (fill_slots_lookup _ _ _ _ _ _ Hhit' Hle Hi).
    destruct (is_miss db attr req) eqn:Hm.
    + split; [|done]. by apply filter_lookup_take.
    + rewrite Forall_lookup in Hhit. by destruct (Hhit _ _ Hi Hm) as (_ & _ & ->).
  - rewrite Hsnd. eapply Forall_impl; [exact Hnn|]. intros r. by rewrite is_None_false.
  - rewrite (count_None_slots _ _ _ Hhit'), length_zip_with.
    fold remaining_reqs. lia.
Qed.





(** Values written to the store. *)
Lemma written_not_None_lookup d path k :
  written_not_None d -> (d !!! path : table) !! k <> Some PyNone.
Proof.
  intros Hd. revert path k.
  induction Hd as [|path' d _ IH|path' key r d _ IH]; intros path k.
  - rewrite lookup_total_empty. unfold inhabitant. simpl. by rewrite lookup_empty.
  - unfold sqlite_open. destruct (d !! path') eqn:Hp; [apply IH|].
    destruct (decide (path' = path)) as [->|Hne].
    + by rewrite lookup_total_insert_eq, lookup_empty.
    + rewrite lookup_total_insert_ne by done. apply IH.
  - destruct (decide (path' = path)) as [->|Hne].
    + rewrite dbdict_set_lookup. case_decide; [done|apply IH].
    + rewrite dbdict_set_lookup_other by done. apply IH.
Qed.

Lemma check_request_assert db attr req :
  check_request db attr req = Raise AssertionError ->
  do_sample attr req = Ok false /\ db !! hash_args attr (args req) = Some PyNone.
Proof.
  unfold check_request.
  destruct (do_sample attr req) as [[|]|e] eqn:Hs; simpl; try done.
  - destruct (db !! hash_args attr (args req)) as [[|r]|]; simpl; done.
  - intros [= ->]. unfold do_sample in Hs.
    destruct (String.eqb attr "generate_until"); [|done].
    by destruct (args req) as [|? [|[] ?]].
Qed.

Lemma check_loop_assert db attr requests res rem :
  check_loop db attr requests res rem = Raise AssertionError ->
  exists req, In req requests /\ do_sample attr req = Ok false /\
              db !! hash_args attr (args req) = Some PyNone.
Proof.
  revert res rem. induction requests as [|req requests IH]; intros res rem; simpl; [done|].
  destruct (check_request db attr req) as [[ob miss]|e] eqn:Hreq; simpl.
  - intros (req' & Hin & H)%IH. eauto.
  - intros [= ->]. apply check_request_assert in Hreq. eauto.
Qed.

Lemma skip_filled_raise (slots : list (pyobj R)) p e :
  skip_filled slots p = Raise e -> e = IndexError.
Proof.
  revert p. induction slots as [|[|r] slots IH]; intros p; simpl; try done.
  - by intros [= <-].
  - apply IH.
Qed.

Lemma merge_loop_raise self attr pairs res p d e :
  merge_loop self attr pairs res p d = Raise e -> e = IndexError.
Proof.
  revert res p d. induction pairs as [|[req r] pairs IH]; intros res p d; simpl; [done|].
  destruct (skip_filled (drop p res) p) as [p'|e'] eqn:Hskip; simpl.
  - apply IH.
  - intros [= <-]. by apply skip_filled_raise in Hskip.
Qed.

(** C6: the first loop asserts that a value read from the store is not
    [None]; on a disk where no value ever written is [None], neither
    [fn] nor the test of a single request raises the assertion error. *)
Theorem assertion_never_fails d self attr requests :
  written_not_None d ->
  fn self attr requests d <> Raise AssertionError /\
  forall req, check_request (d !!! cache_db self) attr req <> Raise AssertionError.
Proof.
  intros Hd. split.
  - unfold fn.
    destruct (check_loop (d !!! cache_db self) attr requests [] [])
      as [[res rem]|e] eqn:Hloop; simpl.
    + destruct (lm self attr rem d) as [rem_res d1].
      intros Hm%merge_loop_raise. done.
    + intros [= ->]. apply check_loop_assert in Hloop as (req & _ & _ & Hk).
      by apply (written_not_None_lookup _ _ _ Hd) in Hk.
  - intros req (_ & Hk)%check_request_assert.
    by apply (written_not_None_lookup _ _ _ Hd) in Hk.
Qed.

(** C9: the hook [CacheHook(None)] has the interface of an active hook,
    and its [add_partial] returns without changing any table of the
    disk, for one call and for any sequence of calls. *)
Theorem null_hook_writes_nothing attr (payload : list pyval) (res : pyobj R) d
    (calls : list (string * list pyval * pyobj R)) :
  add_partial (CacheHook_init (R:=R) None) attr payload res d = d /\
  foldl (fun d c => add_partial (CacheHook_init (R:=R) None) c.1.1 c.1.2 c.2 d) d calls = d.
Proof.
  split; [done|]. induction calls as [|c calls IH]; [done|]. exact IH.
Qed.

(** C10: after [add_partial(attr, payload, res)] on the hook of a
    caching LM, with [res] not [None], a call of [fn] for [attr] serves
    every request with these arguments (sampling flag not set) from the
    cache: its slot in the results is [res], and the request is not
    among those handed to the backend. *)
Theorem add_partial_then_hit self attr (payload : list pyval) (r : R) d requests results d' :
  fn self attr requests (add_partial (get_cache_hook self) attr payload (PyObj r) d)
    = Ok (results, d') ->
  forall i req, requests !! i = Some req -> args req = payload ->
    sampling attr req = false ->
    results !! i = Some (PyObj r) /\
    exists rem,
      remaining self attr requests
        (add_partial (get_cache_hook self) attr payload (PyObj r) d) = Ok rem /\
      ~ In req rem.
Proof.
  intros Hfn i req Hi <- Hs.
  change (add_partial (get_cache_hook self) attr (args req) (PyObj r) d)
    with (dbdict_set (cache_db self) (hash_args attr (args req)) (PyObj r) d) in *.
  set (d1 := dbdict_set _ _ _ d) in *.
  destruct (fn_inv _ _ _ _ _ _ Hfn) as (Hloop & Hrem & Hmerge).
  destruct (check_loop_ok _ _ _ _ _ Hloop) as (_ & _ & _ & Hb).
  rewrite Forall_lookup in Hb. destruct (Hb _ _ Hi) as [b Hsam].
  assert ((d1 !!! cache_db self) !! hash_args attr (args req) = Some (PyObj r)) as Hk.
  { unfold d1. rewrite dbdict_set_lookup. by rewrite decide_True. }
  assert (is_miss (d1 !!! cache_db self) attr req = false) as Hm.
  { unfold is_miss, sampling in *. rewrite Hsam in *. destruct b; [done|]. by rewrite Hk. }
  assert (slot_of (d1 !!! cache_db self) attr req = PyObj r) as Hslot.
  { unfold slot_of. by rewrite Hm, Hk. }
  split.
  - apply merge_loop_writes in Hmerge as (_ & _ & Hkeep).
    apply Hkeep; [|done]. by rewrite list_lookup_fmap, Hi, <- Hslot.
  - eexists. split; [exact Hrem|].
    rewrite filter_In. intros [_ Hm']. congruence.
Qed.

Lemma filter_all_false {A : Type} (f : A -> bool) (l : list A) :
  Forall (fun x => f x = false) l -> List.filter f l = [].
Proof. induction 1 as [|x l Hx _ IH]; simpl; [done|]. by rewrite Hx. Qed.

(** C4 (as amended): take a batch in which no request has its sampling
    flag set, and a first call whose backend returns one result per
    request, none of them [None], equal results for requests with equal
    fingerprints, and leaves the cached entries of the batch as they
    were.  Then a second call on the store the first call leaves,
    whatever the backend does then, hands the backend the empty list and
    returns the results of the first call. *)
Theorem second_call_replays self (lm2 : backend) attr requests d results d1 :
  let db := d !!! cache_db self in
  let rem := List.filter (is_miss db attr) requests in
  let rem_res := (lm self attr rem d).1 in
  let d_lm := (lm self attr rem d).2 in
  Forall (fun req => sampling attr req = false) requests ->
  fn self attr requests d = Ok (results, d1) ->
  length rem_res = length rem ->
  Forall (fun r => r <> PyNone) rem_res ->
  (forall i j qi qj, rem !! i = Some qi -> rem !! j = Some qj ->
     hash_args attr (args qi) = hash_args attr (args qj) ->
     rem_res !! i = rem_res !! j) ->
  (forall req, In req requests -> is_miss db attr req = false ->
     (d_lm !!! cache_db self) !! hash_args attr (args req) =
     db !! hash_args attr (args req)) ->
  let self2 := {| lm := lm2; cache_db := cache_db self |} in
  remaining self2 attr requests d1 = Ok [] /\
  exists d2, fn self2 attr requests d1 = Ok (results, d2).
Proof.
  intros db rem rem_res d_lm Hns Hfn Hlen Hnn Hsame Hkeep self2.
  destruct (fn_inv _ _ _ _ _ _ Hfn) as (Hloop & _ & Hmerge).
  fold db rem in Hloop, Hmerge. fold rem_res d_lm in Hmerge.
  destruct (check_loop_ok _ _ _ _ _ Hloop) as (_ & _ & Hhit & Hb).
  pose proof (hits_not_None _ _ _ Hhit) as Hhit'.
  assert ((zip rem rem_res).*2 = rem_res) as Hsnd by (apply snd_zip; lia).
  assert (length (List.filter (is_miss db attr) requests) <= length rem_res) as Hle.
  { fold rem. lia. }
  rewrite merge_loop_fill0 in Hmerge; cycle 1.
  { rewrite Hsnd. eapply Forall_impl; [exact Hnn|]. intros r. by rewrite is_None_false. }
  { rewrite (count_None_slots _ _ _ Hhit'), length_zip_with. fold rem. lia. }
  rewrite Hsnd in Hmerge. injection Hmerge as Hres Hd1.
  (* every request of the batch is now in the table, with its result *)
  assert (forall i req, requests !! i = Some req ->
            exists v, results !! i = Some v /\ v <> PyNone /\
              (d1 !!! cache_db self) !! hash_args attr (args req) = Some v) as Hall.
  { intros i req Hi. rewrite <- Hres.
    rewrite (fill_slots_lookup _ _ _ _ _ _ Hhit' Hle Hi).
    destruct (is_miss db attr req) eqn:Hm.
    - pose proof (filter_lookup_take _ _ _ _ Hi Hm) as Hj. fold rem in Hj.
      set (j := length (List.filter (is_miss db attr) (take i requests))) in *.
      destruct (lookup_lt_is_Some_2 rem_res j) as [v Hv].
      { rewrite Hlen. by eapply lookup_lt_Some. }
      exists v. split; [done|]. split.
      { rewrite Forall_lookup in Hnn. by eapply Hnn. }
      rewrite <- Hd1. apply cache_writes_lookup_eq.
      + apply Forall_lookup. intros j' [q r] Hj'. simpl. intros Hk.
        apply lookup_zip_with_Some in Hj' as (q' & r' & [= -> ->] & Hq & Hr).
        specialize (Hsame _ _ _ _ Hq Hj Hk). congruence.
      + left. apply Exists_exists. exists (req, v). split; [|done].
        apply list_elem_of_lookup. exists j. apply lookup_zip_with_Some. eauto.
    - rewrite Forall_lookup in Hhit. destruct (Hhit _ _ Hi Hm) as (Hn & _ & Hdb).
      exists (slot_of db attr req). split; [done|]. split; [by apply is_None_false|].
      rewrite <- Hd1, cache_writes_lookup_ne.
      + rewrite Hkeep; [done| |done]. apply list_elem_of_In, list_elem_of_lookup. eauto.
      + apply Forall_forall. intros [q r] Hin Hk. simpl in Hk.
        apply elem_of_zip_l in Hin.
        apply list_elem_of_In, filter_In in Hin as [Hin Hq].
        rewrite Forall_forall in Hns. apply list_elem_of_In in Hin.
        specialize (Hns _ Hin).
        unfold is_miss, sampling in Hq, Hns. rewrite Hk in Hq.
        destruct (do_sample attr q) as [[|]|]; try done.
        by rewrite Hdb in Hq. }
  set (db1 := d1 !!! cache_db self) in *.
  assert (Forall (fun req => is_miss db1 attr req = false) requests) as Hhits.
  { apply Forall_lookup. intros i req Hi.
    destruct (Hall _ _ Hi) as (v & _ & _ & Hv).
    rewrite Forall_lookup in Hb, Hns. destruct (Hb _ _ Hi) as [b Hsam].
    specialize (Hns _ _ Hi). unfold is_miss, sampling in *. rewrite Hsam in *.
    destruct b; [done|]. by rewrite Hv. }
  assert (check_loop db1 attr requests [] [] = Ok (results, [])) as Hloop2.
  { rewrite check_loop_total; [|done|].
    - rewrite (filter_all_false _ _ Hhits). f_equal. f_equal.
      apply list_eq. intros i. rewrite list_lookup_fmap.
      destruct (requests !! i) as [req|] eqn:Hi; simpl.
      + destruct (Hall _ _ Hi) as (v & -> & _ & Hv).
        rewrite Forall_lookup in Hhits. unfold slot_of.
        by rewrite (Hhits _ _ Hi), Hv.
      + symmetry. apply lookup_ge_None. rewrite <- Hres, length_fill, length_map.
        by apply lookup_ge_None.
    - apply Forall_lookup. intros i req Hi _.
      destruct (Hall _ _ Hi) as (v & _ & Hvn & ->). congruence. }
  split.
  - unfold remaining. simpl. fold db1. by rewrite Hloop2.
  - unfold fn. simpl. fold db1. rewrite Hloop2. simpl.
    destruct (lm2 attr [] d1) as [rr d2]. simpl. eauto.
Qed.

End CachingFacts.

(* ===================================================================== *)
(** ** The caching wrapper on concrete batches *)
(* ===================================================================== *)

Lemma returned_Some {A B : Type} (o : outcome (A * B)) (a : A) :
  returned o = Some a -> exists b, o = Ok (a, b).
Proof. destruct o as [[a' b]|e]; simpl; [|done]. intros [= ->]. eauto. Qed.

(** The scenario of section 8 of the specification: three loglikelihood
    requests, the second one cached.  The backend is given the first and
    the third, and the store holds three entries afterwards. *)
Lemma fn_warm_batch :
  remaining cached_lm "loglikelihood" [req_ab; req_ac; req_ad] warm_disk
    = Ok [req_ab; req_ad] /\
  returned (fn cached_lm "loglikelihood" [req_ab; req_ac; req_ad] warm_disk)
    = Some [PyObj ("loglikelihood", 0); PyObj ("cached", 7); PyObj ("loglikelihood", 1)] /\
  match fn cached_lm "loglikelihood" [req_ab; req_ac; req_ad] warm_disk with
  | Ok (_, d') => size (d' !!! cache_path) = 3
  | Raise _ => False
  end.
Proof.
  vm_compute. split; [reflexivity|]. split; reflexivity.
Qed.

Lemma fn_results_aligned_witness :
  let requests := [req_ab; req_ac; req_ad] in
  let results :=
    [PyObj ("loglikelihood", 0); PyObj ("cached", 7); PyObj ("loglikelihood", 1)] in
  let db := warm_disk !!! cache_db cached_lm in
  let remaining_reqs := List.filter (is_miss db "loglikelihood") requests in
  let rem_res := (lm cached_lm "loglikelihood" remaining_reqs warm_disk).1 in
  remaining cached_lm "loglikelihood" requests warm_disk = Ok remaining_reqs /\
  length results = length requests /\
  forall i req, requests !! i = Some req ->
    if is_miss db "loglikelihood" req
    then let j := length (List.filter (is_miss db "loglikelihood") (take i requests)) in
         remaining_reqs !! j = Some req /\ results !! i = rem_res !! j
    else results !! i = db !! hash_args "loglikelihood" (args req).
Proof.
  destruct (returned_Some
              (fn cached_lm "loglikelihood" [req_ab; req_ac; req_ad] warm_disk)
              [PyObj ("loglikelihood", 0); PyObj ("cached", 7); PyObj ("loglikelihood", 1)])
    as [d' Hfn]; [vm_compute; reflexivity|].
  apply (fn_results_aligned cached_lm "loglikelihood" [req_ab; req_ac; req_ad]
           warm_disk _ d' Hfn).
  - vm_compute. reflexivity.
  - vm_compute. repeat constructor; discriminate.
Defined.

(** With a backend whose first answer is [None], the second answer
    lands in the slot of the first request and the slot of the second
    request stays free. *)
Lemma fn_results_misaligned :
  let requests := [req_ab; req_ac] in
  let rem_res := (lm cached_none_first_lm "loglikelihood" requests ∅).1 in
  remaining cached_none_first_lm "loglikelihood" requests ∅ = Ok requests /\
  rem_res = [PyNone; PyObj ("loglikelihood", 1)] /\
  match fn cached_none_first_lm "loglikelihood" requests ∅ with
  | Ok (results, _) =>
      results = [PyObj ("loglikelihood", 1); PyNone] /\
      results !! 0 <> rem_res !! 0 /\ results !! 1 <> rem_res !! 1
  | Raise _ => False
  end.
Proof.
  vm_compute. split; [reflexivity|]. split; [reflexivity|]. split; [reflexivity|].
  split; intros H; discriminate H.
Qed.

(** C2: the result of a request with the sampling flag set is written
    to the store by the call, under the fingerprint of the request. *)
Lemma sampled_result_is_written :
  sampling "generate_until" req_sampled = true /\
  match fn cached_lm "generate_until" [req_sampled] ∅ with
  | Ok (results, d') =>
      results = [PyObj ("generate_until", 0)] /\
      (d' !!! cache_path) !! hash_args "generate_until" (args req_sampled) =
        Some (PyObj ("generate_until", 0))
  | Raise _ => False
  end.
Proof.
  vm_compute. split; [reflexivity|]. split; reflexivity.
Qed.


(** The fingerprint of [req_sampled] is in [sampled_disk], and both
    copies of the request are handed to the backend all the same. *)
Lemma sampled_twice_both_reach_backend :
  (sampled_disk !!! cache_path) !! hash_args "generate_until" (args req_sampled)
    = Some (PyObj ("stale", 0)) /\
  remaining cached_lm "generate_until" [req_sampled; req_sampled] sampled_disk
    = Ok [req_sampled; req_sampled].
Proof.
  vm_compute. split; reflexivity.
Qed.

(** A request with the sampling flag set is handed to the backend again
    by a second call on the store the first call leaves. *)
Lemma second_call_repeats_sampled :
  match fn cached_lm "generate_until" [req_sampled] ∅ with
  | Ok (_, d1) =>
      remaining cached_lm "generate_until" [req_sampled] d1 = Ok [req_sampled] /\
      remaining cached_lm "generate_until" [req_sampled] d1 <> Ok []
  | Raise _ => False
  end.
Proof.
  vm_compute. split; [reflexivity|]. intros H. discriminate H.
Qed.

Lemma second_call_replays_witness :
  match fn cached_lm "loglikelihood" [req_ab; req_ac; req_ad] warm_disk with
  | Ok (results, d1) =>
      remaining cached_none_first_lm "loglikelihood" [req_ab; req_ac; req_ad] d1
        = Ok [] /\
      exists d2,
        fn cached_none_first_lm "loglikelihood" [req_ab; req_ac; req_ad] d1
          = Ok (results, d2)
  | Raise _ => False
  end.
Proof.
  destruct (returned_Some
              (fn cached_lm "loglikelihood" [req_ab; req_ac; req_ad] warm_disk)
              [PyObj ("loglikelihood", 0); PyObj ("cached", 7); PyObj ("loglikelihood", 1)])
    as [d1 Hfn]; [vm_compute; reflexivity|].
  rewrite Hfn.
  apply (second_call_replays cached_lm none_first_lm "loglikelihood"
           [req_ab; req_ac; req_ad] warm_disk _ d1).
  - repeat constructor.
  - exact Hfn.
  - vm_compute. reflexivity.
  - vm_compute. repeat constructor; discriminate.
  - assert (List.filter (is_miss (warm_disk !!! cache_db cached_lm) "loglikelihood")
              [req_ab; req_ac; req_ad] = [req_ab; req_ad]) as ->
      by (vm_compute; reflexivity).
    intros [|[|i]] [|[|j]] qi qj Hi Hj Hk; try discriminate Hi;
      try discriminate Hj; try reflexivity;
      injection Hi as <-; injection Hj as <-;
      vm_compute in Hk; discriminate Hk.
  - intros req _ _. reflexivity.
Defined.

Lemma assertion_never_fails_witness :
  fn cached_lm "loglikelihood" [req_ab; req_ac; req_ad] warm_disk
    <> Raise AssertionError /\
  forall req, check_request (warm_disk !!! cache_db cached_lm) "loglikelihood" req
              <> Raise AssertionError.
Proof.
  apply (assertion_never_fails warm_disk cached_lm "loglikelihood"
           [req_ab; req_ac; req_ad]).
  apply wnn_set, wnn_empty.
Defined.

Lemma add_partial_then_hit_witness :
  [PyObj ("loglikelihood", 0); PyObj ("hook", 3)] !! 1 = Some (PyObj ("hook", 3)) /\
  exists rem,
    remaining cached_lm "loglikelihood" [req_ab; req_ac]
      (add_partial (get_cache_hook cached_lm) "loglikelihood" (args req_ac)
         (PyObj ("hook", 3)) ∅) = Ok rem /\
    ~ In req_ac rem.
Proof.
  destruct (returned_Some
              (fn cached_lm "loglikelihood" [req_ab; req_ac]
                 (add_partial (get_cache_hook cached_lm) "loglikelihood" (args req_ac)
                    (PyObj ("hook", 3)) ∅))
              [PyObj ("loglikelihood", 0); PyObj ("hook", 3)])
    as [d' Hfn]; [vm_compute; reflexivity|].
  assert ([req_ab; req_ac] !! 1 = Some req_ac) as Hi by reflexivity.
  assert (sampling "loglikelihood" req_ac = false) as Hs by reflexivity.
  exact (add_partial_then_hit cached_lm "loglikelihood" (args req_ac) ("hook", 3) ∅
           [req_ab; req_ac] _ d' Hfn 1 req_ac Hi eq_refl Hs).
Defined.

(* ===================================================================== *)
(** ** [_encode_pair] *)
(* ===================================================================== *)

(** [rstrip] splits a string into what it keeps and a run of whitespace. *)
Lemma rstrip_split s :
  exists ws, s = rstrip s +:+ ws /\ all_space ws = true.
Proof.
  induction s as [|c s (ws & Hs & Hws)]; [by exists ""|].
  simpl. destruct (rstrip s) as [|c' t] eqn:Ht.
  - destruct (isspace c) eqn:Hc.
    + exists (String c ws). rewrite app_empty_l in *. split; [by rewrite <- Hs|].
      simpl. by rewrite Hc.
    + exists ws. by rewrite app_String, <- Hs.
  - exists ws. by rewrite app_String, <- Hs.
Qed.

Lemma rstrip_last s :
  match last_char (rstrip s) with
  | Some c => isspace c = false
  | None => True
  end.
Proof.
  induction s as [|c s IH]; [done|].
  simpl. destruct (rstrip s) as [|c' t] eqn:Ht.
  - destruct (isspace c) eqn:Hc; simpl; done.
  - exact IH.
Qed.

Lemma rstrip_fixed s :
  match last_char s with Some c => isspace c = false | None => True end ->
  rstrip s = s.
Proof.
  induction s as [|c s IH]; [done|]. simpl.
  destruct s as [|c' s'].
  - simpl. by intros ->.
  - intros H. rewrite (IH H). done.
Qed.

Lemma str_take_app s1 s2 : str_take (String.length s1) (s1 +:+ s2) = s1.
Proof. induction s1 as [|c s1 IH]; [by destruct s2|]. simpl. by rewrite IH. Qed.

Lemma str_drop_app s1 s2 : str_drop (String.length s1) (s1 +:+ s2) = s2.
Proof. induction s1 as [|c s1 IH]; [by destruct s2|]. done. Qed.

Lemma split_pair_spec context continuation :
  exists ws,
    context = rstrip context +:+ ws /\ all_space ws = true /\
    split_pair context continuation = (rstrip context, ws +:+ continuation).
Proof.
  destruct (rstrip_split context) as (ws & Hs & Hws).
  exists ws. split; [done|]. split; [done|].
  unfold split_pair, slice_but_last, slice_last.
  assert (String.length context = String.length (rstrip context) + String.length ws) as Hlen.
  { rewrite Hs at 1. apply string_length_app. }
  rewrite Hlen.
  replace (String.length (rstrip context) + String.length ws
           - String.length (rstrip context)) with (String.length ws) by lia.
  destruct (0 <? String.length ws) eqn:Hn.
  - replace (String.length (rstrip context) + String.length ws - String.length ws)
      with (String.length (rstrip context)) by lia.
    rewrite Hs at 2 4. by rewrite str_take_app, str_drop_app.
  - apply Nat.ltb_ge in Hn. destruct ws; [|simpl in Hn; lia].
    rewrite app_empty_r in Hs. by rewrite <- Hs.
Qed.

Section EncodePair.

Context {token : Type} `{TemplateLM token}.

(** C7: [_encode_pair] first moves the whole run of whitespace at the
    end of the context to the front of the continuation: the context
    that is encoded is [rstrip context], it does not end in whitespace,
    and the two strings together are unchanged.  For the
    encoder-decoder class both strings are encoded on their own; in
    every other case (the decoder-only models) the continuation tokens
    are the joint encoding without its first [len(context_enc)]
    tokens. *)
Theorem encode_pair_spec context continuation :
  exists ws,
    let context' := rstrip context in
    let continuation' := ws +:+ continuation in
    context = context' +:+ ws /\ all_space ws = true /\
    match last_char context' with Some c => isspace c = false | None => True end /\
    context' +:+ continuation' = context +:+ continuation /\
    _encode_pair context continuation =
      match AUTO_MODEL_CLASS with
      | Some AutoModelForSeq2SeqLM =>
          (tok_encode context' None, tok_encode continuation' (Some false))
      | _ =>
          (tok_encode context' None,
           drop (length (tok_encode context' None))
                (tok_encode (context' +:+ continuation') None))
      end.
Proof.
  destruct (split_pair_spec context continuation) as (ws & Hs & Hws & Hsplit).
  exists ws. cbv zeta. split; [done|]. split; [done|]. split; [apply rstrip_last|].
  split; [by rewrite <- string_app_assoc, <- Hs|].
  unfold _encode_pair. unfold split_pair in Hsplit. rewrite Hsplit.
  by destruct AUTO_MODEL_CLASS as [[|]|].
Qed.

End EncodePair.

(* ===================================================================== *)
(** ** The windows of [loglikelihood_rolling] *)
(* ===================================================================== *)

Section RollingFacts.


Context {token : Type}.

Implicit Types (tokens : list token) (b : token) (w : @window token).

Lemma length_slice i j (l : list token) :
  j <= length l -> length (slice i j l) = j - i.
Proof. intros Hj. unfold slice. rewrite length_take, length_drop. lia. Qed.

Lemma slice_app_next i j k (l : list token) :
  i <= j -> j <= k -> slice i j l ++ slice j k l = slice i k l.
Proof.
  intros Hij Hjk. unfold slice.
  replace (k - i) with ((j - i) + (k - j)) by lia.
  rewrite <- take_take_drop, drop_drop. do 3 f_equal. lia.
Qed.

Lemma windows_from_spec fuel max_window predicted b tokens :
  0 < max_window -> predicted <= length tokens ->
  length tokens - predicted <= fuel ->
  let ws := windows_from fuel max_window predicted b tokens in
  concat (map predicted_positions ws) = seq predicted (length tokens - predicted) /\
  concat (map w_pred ws) = drop predicted tokens /\
  Forall (window_ok max_window b tokens) ws /\
  Forall (fun w => predicted <= pred_from w) ws /\
  length ws = (length tokens - predicted + max_window - 1) / max_window.
Proof.
  intros Hmax. revert predicted.
  induction fuel as [|fuel IH]; intros predicted Hle Hfuel; cbv zeta.
  - assert (predicted = length tokens) as -> by lia. simpl.
    rewrite Nat.sub_diag, drop_all. simpl. repeat split; try constructor.
    symmetry. apply Nat.div_small. lia.
  - simpl. destruct (predicted <? length tokens) eqn:Hlt.
    + apply Nat.ltb_lt in Hlt.
      set (frontier := Nat.min (predicted + max_window) (length tokens)).
      assert (predicted < frontier /\ frontier <= length tokens) as [Hpf Hfn]
        by (unfold frontier; lia).
      destruct (IH frontier Hfn ltac:(lia)) as (Hpos & Hpred & Hok & Hfrom & Hlen).
      simpl. rewrite Hpos, Hpred. unfold predicted_positions at 1. simpl.
      split; [|split; [|split; [|split]]].
      * replace (length tokens - predicted)
          with ((frontier - predicted) + (length tokens - frontier)) by lia.
        rewrite seq_app. do 2 f_equal. lia.
      * unfold slice. rewrite <- (take_drop (frontier - predicted) (drop predicted tokens)) at 2.
        f_equal. rewrite drop_drop. f_equal. lia.
      * constructor; [|done]. unfold window_ok. simpl. fold frontier.
        repeat split; try done; try lia.
        rewrite length_slice by (simpl; lia). lia.
      * constructor; [simpl; lia|]. eapply Forall_impl; [exact Hfrom|].
        simpl. intros w Hw. lia.
      * rewrite Hlen. unfold frontier.
        destruct (Nat.le_gt_cases (predicted + max_window) (length tokens)) as [Hfull|Hpart].
        -- rewrite Nat.min_l by done.
           replace (length tokens - predicted + max_window - 1)
             with (length tokens - (predicted + max_window) + max_window - 1 + 1 * max_window)
             by lia.
           rewrite Nat.div_add by lia. lia.
        -- rewrite Nat.min_r by lia. rewrite Nat.sub_diag.
           rewrite (Nat.div_small (0 + max_window - 1)) by lia.
           apply (Nat.div_unique _ _ 1 (length tokens - predicted - 1)); lia.
    + apply Nat.ltb_ge in Hlt. assert (predicted = length tokens) as -> by lia.
      simpl. rewrite Nat.sub_diag, drop_all. simpl. repeat split; try constructor.
      symmetry. apply Nat.div_small. lia.
Qed.

(** C8 (as amended): for a window size of at least one, the positions
    predicted by the windows, taken in order, are 0, 1, ..., n-1, each
    once; every window predicts between one and [max_window] tokens from
    the [max_window] tokens before the last one it predicts; when the
    sequence has at least [max_window] tokens every window, the last
    one too, has an input of exactly [max_window] tokens, and a shorter
    sequence gives one window with as many inputs as it has tokens; the
    number of windows is n / max_window rounded up (3 for n = 10 and
    max_window = 4). *)
Theorem rolling_windows_partition tokens max_window b :
  0 < max_window ->
  let ws := rolling_windows tokens max_window b in
  concat (map predicted_positions ws) = seq 0 (length tokens) /\
  concat (map w_pred ws) = tokens /\
  Forall (fun w => 0 < length (w_pred w) <= max_window /\
                   w_pred w = slice (pred_from w) (pred_to w) tokens /\
                   w_input w = slice (pred_to w - max_window) (pred_to w) (b :: tokens))
         ws /\
  (max_window <= length tokens -> Forall (fun w => length (w_input w) = max_window) ws) /\
  (length tokens < max_window -> Forall (fun w => length (w_input w) = length tokens) ws) /\
  length ws = (length tokens + max_window - 1) / max_window.
Proof.
  intros Hmax ws.
  destruct (windows_from_spec (length tokens) max_window 0 b tokens Hmax)
    as (Hpos & Hpred & Hok & _ & Hlen); [lia..|].
  fold (rolling_windows tokens max_window b) in Hpos, Hpred, Hok, Hlen. fold ws in Hpos, Hpred, Hok, Hlen.
  rewrite Nat.sub_0_r in *. rewrite drop_0 in Hpred.
  split; [done|]. split; [done|]. split; [|split; [|split; [|done]]].
  - eapply Forall_impl; [exact Hok|]. intros w (H1 & H2 & H3 & H4 & H5 & H6).
    rewrite H4 at 1 2. rewrite length_slice by done. repeat split; try done; lia.
  - intros Hn. eapply Forall_impl; [exact Hok|]. intros w (H1 & H2 & H3 & H4 & H5 & H6).
    rewrite H6. lia.
  - intros Hn. eapply Forall_impl; [exact Hok|]. intros w (H1 & H2 & H3 & H4 & H5 & H6).
    rewrite H6. lia.
Qed.

End RollingFacts.

Lemma rolling_windows_partition_witness :
  let tokens := [0; 1; 2; 3; 4; 5; 6; 7; 8; 9] in
  let ws := rolling_windows tokens 4 99 in
  concat (map predicted_positions ws) = seq 0 (length tokens) /\
  concat (map w_pred ws) = tokens /\
  Forall (fun w => 0 < length (w_pred w) <= 4 /\
                   w_pred w = slice (pred_from w) (pred_to w) tokens /\
                   w_input w = slice (pred_to w - 4) (pred_to w) (99 :: tokens))
         ws /\
  (4 <= length tokens -> Forall (fun w => length (w_input w) = 4) ws) /\
  (length tokens < 4 -> Forall (fun w => length (w_input w) = length tokens) ws) /\
  length ws = (length tokens + 4 - 1) / 4.
Proof.
  apply (rolling_windows_partition [0; 1; 2; 3; 4; 5; 6; 7; 8; 9] 4 99). lia.
Defined.

Lemma rolling_windows_docstring_example :
  rolling_windows [0; 1; 2; 3; 4; 5; 6; 7; 8; 9] 4 99 =
  [ {| w_input := [99; 0; 1; 2]; w_pred := [0; 1; 2; 3]; pred_from := 0; pred_to := 4 |};
    {| w_input := [3; 4; 5; 6]; w_pred := [4; 5; 6; 7]; pred_from := 4; pred_to := 8 |};
    {| w_input := [5; 6; 7; 8]; w_pred := [8; 9]; pred_from := 8; pred_to := 10 |} ].
Proof. reflexivity. Qed.

Lemma short_sequence_window_not_full :
  rolling_windows [0; 1] 4 99 =
    [ {| w_input := [99; 0]; w_pred := [0; 1]; pred_from := 0; pred_to := 2 |} ] /\
  exists w, last (rolling_windows [0; 1] 4 99) = Some w /\ length (w_input w) <> 4.
Proof. split; [reflexivity|]. eexists. split; [reflexivity|]. simpl. lia. Qed.

(* ===================================================================== *)
(** * The caching wrapper: errors, bounds and the store *)
(* ===================================================================== *)

Section CachingMore.

Context {R : Type}.
#[local] Opaque hash_args.

#[local] Abbreviation table := (gmap string (pyobj R)).
#[local] Abbreviation disk := (gmap string (gmap string (pyobj R))).

Implicit Types (db : table) (d : disk) (attr : string) (req : Instance)
  (requests : list Instance) (self : @CachingLM R).

Lemma remaining_raise self attr requests d e :
  remaining self attr requests d = Raise e -> fn self attr requests d = Raise e.
Proof.
  unfold fn, remaining.
  destruct (check_loop (d !!! cache_db self) attr requests [] []) as [[res rem]|e'];
    simpl; [done|]. by intros [= ->].
Qed.

(** X1: the call returns whenever its first loop does, whatever the
    backend answers: the search for the next free slot never runs past
    the end of the results.  An exception of the first loop is the
    exception of the call. *)
Theorem fn_returns_unless_first_loop_raises self attr requests d :
  match remaining self attr requests d with
  | Ok rem =>
      exists results,
        fn self attr requests d =
        Ok (results, cache_writes self attr (zip rem (lm self attr rem d).1)
                       (lm self attr rem d).2)
  | Raise e => fn self attr requests d = Raise e
  end.
Proof.
  destruct (remaining self attr requests d) as [rem|e] eqn:Hrem.
  - by apply fn_total.
  - by apply remaining_raise.
Qed.

(** X2: whatever the backend answers, the results are as many as the
    requests, and the result of a request served from the cache is the
    stored value, which is not [None]. *)
Theorem fn_hits_whatever_backend self attr requests d results d' :
  fn self attr requests d = Ok (results, d') ->
  let db := d !!! cache_db self in
  length results = length requests /\
  forall i req, requests !! i = Some req -> is_miss db attr req = false ->
    exists ob, db !! hash_args attr (args req) = Some ob /\ ob <> PyNone /\
               results !! i = Some ob.
Proof.
  intros Hfn. cbv zeta.
  destruct (fn_inv _ _ _ _ _ _ Hfn) as (Hloop & _ & Hmerge).
  destruct (check_loop_ok _ _ _ _ _ Hloop) as (_ & _ & Hhit & _).
  destruct (merge_loop_writes _ _ _ _ _ _ _ _ Hmerge) as (_ & Hlen & Hkeep).
  split; [by rewrite Hlen, length_map|].
  intros i req Hi Hm.
  rewrite Forall_forall in Hhit.
  destruct (Hhit req (list_elem_of_lookup_2 _ _ _ Hi) Hm) as (Hnn & _ & Hdb).
  exists (slot_of (d !!! cache_db self) attr req).
  split; [done|]. split; [by apply is_None_false|].
  apply Hkeep; [|done]. by rewrite list_lookup_fmap, Hi.
Qed.

(** The writes of the second loop, seen from the store. *)

Lemma dbdict_set_path_ne path path' key (v : pyobj R) d :
  path <> path' -> dbdict_set path key v d !! path' = d !! path'.
Proof. intros Hp. unfold dbdict_set. by rewrite lookup_insert_ne. Qed.

Lemma cache_writes_path_ne self attr pairs d path :
  path <> cache_db self -> cache_writes self attr pairs d !! path = d !! path.
Proof.
  intros Hp. revert d. induction pairs as [|[req r] pairs IH]; intros d; [done|].
  rewrite cache_writes_cons, IH. by apply dbdict_set_path_ne.
Qed.

Lemma cache_writes_snoc self attr pairs req (r : pyobj R) d :
  cache_writes self attr (pairs ++ [(req, r)]) d =
  dbdict_set (cache_db self) (hash_args attr (args req)) r (cache_writes self attr pairs d).
Proof. unfold cache_writes. by rewrite foldl_app. Qed.

Lemma cache_writes_keeps_keys self attr pairs d k :
  is_Some ((d !!! cache_db self) !! k) ->
  is_Some ((cache_writes self attr pairs d !!! cache_db self) !! k).
Proof.
  revert d. induction pairs as [|[req r] pairs IH]; intros d Hk; [done|].
  rewrite cache_writes_cons. apply IH. rewrite dbdict_set_lookup.
  by destruct (decide _).
Qed.

Lemma cache_writes_last self attr pairs d j req (r : pyobj R) :
  pairs !! j = Some (req, r) ->
  exists j' req' r',
    j <= j' /\ pairs !! j' = Some (req', r') /\
    hash_args attr (args req') = hash_args attr (args req) /\
    (forall j'' p, j' < j'' -> pairs !! j'' = Some p ->
       hash_args attr (args p.1) <> hash_args attr (args req)) /\
    (cache_writes self attr pairs d !!! cache_db self) !! hash_args attr (args req)
      = Some r'.
Proof.
  revert j req r. induction pairs as [|[req0 r0] pairs IH] using rev_ind;
    intros j req r Hj; [done|].
  rewrite cache_writes_snoc, dbdict_set_lookup.
  destruct (decide (hash_args attr (args req0) = hash_args attr (args req))) as [He|Hne].
  - exists (length pairs), req0, r0.
    split; [apply lookup_lt_Some in Hj; rewrite length_app in Hj; simpl in Hj; lia|].
    split; [by rewrite lookup_app_r, Nat.sub_diag|]. split; [done|]. split; [|done].
    intros j'' p Hlt Hp. apply lookup_lt_Some in Hp.
    rewrite length_app in Hp. simpl in Hp. lia.
  - destruct (decide (j < length pairs)) as [Hlt|Hge].
    + rewrite lookup_app_l in Hj by done.
      destruct (IH _ _ _ Hj) as (j' & req' & r' & Hle & Hj' & Hh & Hmax & Hv).
      exists j', req', r'. split; [done|].
      split; [by rewrite lookup_app_l by (by eapply lookup_lt_Some)|].
      split; [done|]. split; [|done].
      intros j'' p Hlt' Hp.
      destruct (decide (j'' < length pairs)) as [Hin|Hout].
      * rewrite lookup_app_l in Hp by done. by eapply Hmax.
      * rewrite lookup_app_r in Hp by lia.
        destruct (j'' - length pairs) as [|n]; [|by destruct n].
        simpl in Hp. by injection Hp as <-.
    + rewrite lookup_app_r in Hj by lia.
      destruct (j - length pairs) as [|n]; [|by destruct n].
      simpl in Hj. injection Hj as <- <-. done.
Qed.

(** X3: what the call does to the store, after the backend.  Files other
    than the cache file are left as the backend left them; so are the
    keys of the cache file that are not the fingerprint of a request
    handed to the backend; no key is removed; and every request that the
    backend answered, with its sampling flag set or not, has its
    fingerprint in the store afterwards, with the answer to the last
    answered request of that fingerprint as value. *)
Theorem fn_store_effect self attr requests d results d' :
  fn self attr requests d = Ok (results, d') ->
  let db := d !!! cache_db self in
  let rem := List.filter (is_miss db attr) requests in
  let rem_res := (lm self attr rem d).1 in
  let d_lm := (lm self attr rem d).2 in
  (forall path, path <> cache_db self -> d' !! path = d_lm !! path) /\
  (forall k, (forall req, In req rem -> hash_args attr (args req) <> k) ->
     (d' !!! cache_db self) !! k = (d_lm !!! cache_db self) !! k) /\
  (forall k, is_Some ((d_lm !!! cache_db self) !! k) ->
     is_Some ((d' !!! cache_db self) !! k)) /\
  (forall j req r, rem !! j = Some req -> rem_res !! j = Some r ->
     exists j' req' r',
       j <= j' /\ rem !! j' = Some req' /\ rem_res !! j' = Some r' /\
       hash_args attr (args req') = hash_args attr (args req) /\
       (forall j'' req'', j' < j'' < length rem_res -> rem !! j'' = Some req'' ->
          hash_args attr (args req'') <> hash_args attr (args req)) /\
       (d' !!! cache_db self) !! hash_args attr (args req) = Some r').
Proof.
  intros Hfn. cbv zeta.
  destruct (fn_inv _ _ _ _ _ _ Hfn) as (_ & _ & Hmerge).
  destruct (merge_loop_writes _ _ _ _ _ _ _ _ Hmerge) as (-> & _ & _).
  set (rem := List.filter (is_miss (d !!! cache_db self) attr) requests).
  split; [intros path Hp; by apply cache_writes_path_ne|].
  split.
  { intros k Hk. apply cache_writes_lookup_ne.
    apply Forall_forall. intros [req r] Hin. simpl.
    apply elem_of_zip_l in Hin. apply Hk. by apply list_elem_of_In. }
  split; [intros k; apply cache_writes_keeps_keys|].
  intros j req r Hj Hr.
  assert (zip rem (lm self attr rem d).1 !! j = Some (req, r)) as Hz.
  { rewrite lookup_zip_with, Hj. simpl. by rewrite Hr. }
  destruct (cache_writes_last self attr _ (lm self attr rem d).2 _ _ _ Hz)
    as (j' & req' & r' & Hle & Hj' & Hh & Hmax & Hv).
  exists j', req', r'. split; [done|].
  apply lookup_zip_with_Some in Hj' as (x & y & [= <- <-] & Hx & Hy).
  split; [done|]. split; [done|]. split; [done|]. split; [|done].
  intros j'' req'' [Hlt Hlen] Hq.
  destruct ((lm self attr rem d).1 !! j'') as [r''|] eqn:Hr'';
    [|apply lookup_ge_None in Hr''; lia].
  apply (Hmax j'' (req'', r'') Hlt).
  rewrite lookup_zip_with, Hq. simpl. by rewrite Hr''.
Qed.

(** Exceptions of the first loop. *)

Lemma check_request_raise db attr req e :
  check_request db attr req = Raise e ->
  do_sample attr req = Raise e \/
  (e = AssertionError /\ do_sample attr req = Ok false /\
   db !! hash_args attr (args req) = Some PyNone).
Proof.
  unfold check_request.
  destruct (do_sample attr req) as [[|]|e'] eqn:Hs; simpl; [done| |intros [= ->]; by left].
  destruct (db !! hash_args attr (args req)) as [[|r]|] eqn:Hdb; simpl; [|done|done].
  intros [= <-]. by right.
Qed.

Lemma check_loop_raise db attr requests res rem e :
  check_loop db attr requests res rem = Raise e ->
  exists req, In req requests /\ check_request db attr req = Raise e.
Proof.
  revert res rem. induction requests as [|req0 requests IH]; intros res rem; [done|].
  cbn [check_loop].
  destruct (check_request db attr req0) as [[ob miss]|e'] eqn:Hc; simpl.
  - intros Hl. destruct (IH _ _ Hl) as (req & Hin & Hr). exists req. split; [by right|done].
  - intros [= ->]. exists req0. split; [by left|done].
Qed.

Lemma stored_None_raises self attr requests d req :
  Forall (fun req => exists b, do_sample attr req = Ok b) requests ->
  In req requests ->
  sampling attr req = false ->
  (d !!! cache_db self) !! hash_args attr (args req) = Some PyNone ->
  remaining self attr requests d = Raise AssertionError.
Proof.
  intros Hok Hin Hs Hdb. unfold remaining.
  destruct (check_loop (d !!! cache_db self) attr requests [] [])
    as [[res rem]|e] eqn:Hloop; simpl.
  - exfalso. destruct (check_loop_ok _ _ _ _ _ Hloop) as (_ & _ & Hhit & _).
    rewrite Forall_forall in Hhit.
    assert (is_miss (d !!! cache_db self) attr req = false) as Hm.
    { unfold is_miss. unfold sampling in Hs.
      destruct (do_sample attr req) as [[|]|]; [done| |done]. by rewrite Hdb. }
    destruct (Hhit req (proj2 (list_elem_of_In _ _) Hin) Hm) as (Hnn & _ & Hslot).
    rewrite Hdb in Hslot. injection Hslot as Heq. rewrite <- Heq in Hnn. done.
  - destruct (check_loop_raise _ _ _ _ _ _ Hloop) as (req' & Hin' & Hr).
    destruct (check_request_raise _ _ _ _ Hr) as [Hd|[-> _]]; [|done].
    rewrite Forall_forall in Hok.
    destruct (Hok req' (proj2 (list_elem_of_In _ _) Hin')) as [b Hb]. congruence.
Qed.

(** X4: when [None] is stored under the fingerprint of a request of the
    batch whose sampling flag is not set, the call raises the assertion
    error before the backend is reached (the requests being such that
    the sampling test itself does not raise). *)
Theorem fn_raises_on_stored_None self attr requests d req :
  Forall (fun req => exists b, do_sample attr req = Ok b) requests ->
  In req requests ->
  sampling attr req = false ->
  (d !!! cache_db self) !! hash_args attr (args req) = Some PyNone ->
  fn self attr requests d = Raise AssertionError /\
  remaining self attr requests d = Raise AssertionError.
Proof.
  intros Hok Hin Hs Hdb.
  pose proof (stored_None_raises _ _ _ _ _ Hok Hin Hs Hdb) as Hrem.
  split; [by apply remaining_raise|done].
Qed.

(** X5: a [None] that the backend answers poisons the cache.  When the
    backend answers [None] to a request whose sampling flag is not set,
    and no later request of the batch handed to the backend has the same
    fingerprint, the call stores [None] under the fingerprint, and the
    same batch issued again, to whatever backend, raises the assertion
    error. *)
Theorem fn_None_answer_poisons_cache self (lm2 : backend) attr requests d results d1
    j req :
  let db := d !!! cache_db self in
  let rem := List.filter (is_miss db attr) requests in
  let rem_res := (lm self attr rem d).1 in
  fn self attr requests d = Ok (results, d1) ->
  rem !! j = Some req ->
  rem_res !! j = Some PyNone ->
  sampling attr req = false ->
  (forall j' req', j < j' -> rem !! j' = Some req' ->
     hash_args attr (args req') <> hash_args attr (args req)) ->
  (d1 !!! cache_db self) !! hash_args attr (args req) = Some PyNone /\
  fn {| lm := lm2; cache_db := cache_db self |} attr requests d1 = Raise AssertionError.
Proof.
  cbv zeta. intros Hfn Hj Hr Hs Hlast.
  destruct (fn_inv _ _ _ _ _ _ Hfn) as (Hloop & _ & Hmerge).
  destruct (check_loop_ok _ _ _ _ _ Hloop) as (_ & _ & _ & Hok).
  destruct (merge_loop_writes _ _ _ _ _ _ _ _ Hmerge) as (-> & _ & _).
  set (rem := List.filter (is_miss (d !!! cache_db self) attr) requests) in *.
  assert (zip rem (lm self attr rem d).1 !! j = Some (req, PyNone)) as Hz.
  { rewrite lookup_zip_with, Hj. simpl. by rewrite Hr. }
  destruct (cache_writes_last self attr _ (lm self attr rem d).2 _ _ _ Hz)
    as (j' & req' & r' & Hle & Hj' & Hh & _ & Hv).
  assert (r' = PyNone) as ->.
  { apply lookup_zip_with_Some in Hj' as (x & y & Heq & Hx & Hy).
    injection Heq as -> ->.
    destruct (decide (j = j')) as [<-|Hne]; [congruence|].
    destruct (Hlast j' x); [lia|done|done]. }
  split; [done|].
  apply remaining_raise.
  apply (stored_None_raises {| lm := lm2; cache_db := cache_db self |} attr requests _ req);
    [done| |done|done].
  apply list_elem_of_lookup_2, list_elem_of_In in Hj.
  by apply filter_In in Hj as [Hin _].
Qed.


Lemma check_loop_app db attr requests1 requests2 :
  check_loop db attr (requests1 ++ requests2) [] [] =
  match check_loop db attr requests1 [] [] with
  | Ok (res, rem) => check_loop db attr requests2 res rem
  | Raise e => Raise e
  end.
Proof.
  assert (forall res0 rem0,
    check_loop db attr (requests1 ++ requests2) res0 rem0 =
    match check_loop db attr requests1 res0 rem0 with
    | Ok (res, rem) => check_loop db attr requests2 res rem
    | Raise e => Raise e
    end) as Hgen; [|apply Hgen].
  induction requests1 as [|req requests1 IH]; intros res0 rem0; [done|].
  cbn [app check_loop].
  destruct (check_request db attr req) as [[ob miss]|e]; simpl; [apply IH|done].
Qed.

(** X6: the wrapper reads [req.args[1].get] for generate_until.  When
    the first loop gets past the requests before it, a generate_until
    request with fewer than two arguments ends the call with IndexError,
    and one whose second argument is not a dictionary with
    AttributeError. *)
Theorem fn_malformed_arguments self requests1 req requests2 d rem :
  remaining self "generate_until" requests1 d = Ok rem ->
  (length (args req) < 2 ->
   fn self "generate_until" (requests1 ++ req :: requests2) d = Raise IndexError) /\
  (forall a0 a1 more, args req = a0 :: a1 :: more -> (forall kw, a1 <> PDict kw) ->
   fn self "generate_until" (requests1 ++ req :: requests2) d = Raise AttributeError).
Proof.
  intros Hrem.
  assert (forall e, do_sample "generate_until" req = Raise e ->
            fn self "generate_until" (requests1 ++ req :: requests2) d = Raise e) as Hraise.
  { intros e He. apply remaining_raise. unfold remaining in *.
    rewrite check_loop_app.
    destruct (check_loop (d !!! cache_db self) "generate_until" requests1 [] [])
      as [[res1 rem1]|e1]; [|done].
    cbn [check_loop]. unfold check_request. by rewrite He. }
  split.
  - intros Hlen. apply Hraise. unfold do_sample. simpl.
    destruct (args req) as [|a0 [|a1 more]]; [done|done|simpl in Hlen; lia].
  - intros a0 a1 more Hargs Hnd. apply Hraise. unfold do_sample. simpl. rewrite Hargs.
    destruct a1 as [| | | | | |kw]; try done. by destruct (Hnd kw).
Qed.

(** X7: on a store that was only ever written with results that are not
    [None], a call of an operation other than generate_until returns,
    whatever the requests (their arguments are only hashed) and whatever
    the backend answers. *)
Theorem fn_likelihood_calls_return self attr requests d :
  attr <> "generate_until" ->
  written_not_None d ->
  remaining self attr requests d =
    Ok (List.filter (is_miss (d !!! cache_db self) attr) requests) /\
  exists results d', fn self attr requests d = Ok (results, d').
Proof.
  intros Hattr Hd.
  assert (remaining self attr requests d =
          Ok (List.filter (is_miss (d !!! cache_db self) attr) requests)) as Hrem.
  { unfold remaining. rewrite check_loop_total; [done| |].
    - apply Forall_forall. intros q _. exists false. unfold do_sample.
      by rewrite (proj2 (String.eqb_neq _ _) Hattr).
    - apply Forall_forall. intros q _ _. by apply written_not_None_lookup. }
  split; [done|].
  destruct (fn_total _ _ _ _ _ Hrem) as [results Hfn]. eauto.
Qed.

Lemma fill_slots_lookup_any db attr requests rs i req :
  requests !! i = Some req ->
  Forall (fun req => is_miss db attr req = false ->
                     is_None (slot_of db attr req) = false) requests ->
  fill (map (slot_of db attr) requests) rs !! i =
  Some (if is_miss db attr req
        then default PyNone (rs !! length (List.filter (is_miss db attr) (take i requests)))
        else slot_of db attr req).
Proof.
  intros Hi Hhit. revert rs i Hi.
  induction Hhit as [|req0 requests Hreq _ IH]; intros rs i Hi; [done|].
  cbn [map fill].
  destruct (is_miss db attr req0) eqn:Hm0.
  - unfold slot_of at 1. rewrite Hm0. cbn [is_None].
    destruct rs as [|r rs].
    + destruct i as [|i]; simpl in Hi.
      * injection Hi as <-. simpl. unfold slot_of. by rewrite Hm0.
      * simpl. rewrite list_lookup_fmap, Hi. simpl. f_equal.
        unfold slot_of. by destruct (is_miss db attr req).
    + destruct i as [|i]; simpl in Hi.
      * injection Hi as <-. by rewrite Hm0.
      * simpl. rewrite Hm0. simpl. by apply IH.
  - rewrite (Hreq eq_refl).
    destruct i as [|i]; simpl in Hi.
    + injection Hi as <-. by rewrite Hm0.
    + simpl. rewrite Hm0. by apply IH.
Qed.

Lemma zip_snd_take {A B : Type} (l : list A) (k : list B) :
  (zip l k).*2 = take (length l) k.
Proof.
  revert k. induction l as [|x l IH]; intros [|y k]; simpl; [done..|].
  by rewrite IH.
Qed.

Lemma fn_fill self attr requests d results d' :
  fn self attr requests d = Ok (results, d') ->
  let db := d !!! cache_db self in
  let rem := List.filter (is_miss db attr) requests in
  Forall (fun r => r <> PyNone) (lm self attr rem d).1 ->
  Forall (fun req => is_miss db attr req = false ->
                     is_None (slot_of db attr req) = false) requests /\
  results = fill (map (slot_of db attr) requests) (take (length rem) (lm self attr rem d).1).
Proof.
  intros Hfn. cbv zeta. intros Hnn.
  destruct (fn_inv _ _ _ _ _ _ Hfn) as (Hloop & _ & Hmerge).
  destruct (check_loop_ok _ _ _ _ _ Hloop) as (_ & _ & Hhit & _).
  apply hits_not_None in Hhit. split; [done|].
  rewrite merge_loop_fill0 in Hmerge.
  - rewrite zip_snd_take in Hmerge. congruence.
  - rewrite zip_snd_take. apply Forall_take.
    eapply Forall_impl; [exact Hnn|]. intros r. apply is_None_false.
  - rewrite count_None_slots by done. rewrite length_zip_with. lia.
Qed.

Lemma filter_take_lt {A : Type} (f : A -> bool) (l : list A) i x :
  l !! i = Some x -> f x = true ->
  length (List.filter f (take i l)) < length (List.filter f l).
Proof.
  intros Hi Hf. rewrite <- (take_drop_middle l i x Hi) at 2.
  rewrite List.filter_app, length_app. simpl. rewrite Hf. simpl. lia.
Qed.

(** X8: a backend that answers with fewer results than it was given
    requests, or with more.  The answers (none of them [None]) go, in
    order, to the first requests that were handed to the backend; the
    requests left without an answer have [None] as result, and the
    answers beyond the last request are dropped. *)
Theorem fn_backend_reply_length self attr requests d results d' :
  fn self attr requests d = Ok (results, d') ->
  let db := d !!! cache_db self in
  let rem := List.filter (is_miss db attr) requests in
  let rem_res := (lm self attr rem d).1 in
  Forall (fun r => r <> PyNone) rem_res ->
  length results = length requests /\
  forall i req, requests !! i = Some req -> is_miss db attr req = true ->
    let j := length (List.filter (is_miss db attr) (take i requests)) in
    rem !! j = Some req /\
    results !! i = Some (default PyNone (rem_res !! j)).
Proof.
  intros Hfn. cbv zeta. intros Hnn.
  destruct (fn_fill _ _ _ _ _ _ Hfn Hnn) as (Hhit & ->).
  split; [by rewrite length_fill, length_map|].
  intros i req Hi Hm. split; [by apply filter_lookup_take|].
  rewrite (fill_slots_lookup_any _ _ _ _ _ _ Hi Hhit), Hm.
  rewrite lookup_take_lt; [done|]. by eapply filter_take_lt.
Qed.

(** X9: a batch of which the store holds no fingerprint.  Every request
    is handed to the backend, and when the backend answers each of them,
    never with [None], the results of the call are the answers of the
    backend. *)
Theorem fn_cold_cache self attr requests d results d' :
  fn self attr requests d = Ok (results, d') ->
  (forall req, In req requests ->
     (d !!! cache_db self) !! hash_args attr (args req) = None) ->
  let rem_res := (lm self attr requests d).1 in
  length rem_res = length requests ->
  Forall (fun r => r <> PyNone) rem_res ->
  remaining self attr requests d = Ok requests /\ results = rem_res.
Proof.
  intros Hfn Hcold. cbv zeta. intros Hlen Hnn.
  destruct (fn_inv _ _ _ _ _ _ Hfn) as (Hloop & Hrem & _).
  destruct (check_loop_ok _ _ _ _ _ Hloop) as (_ & _ & _ & Hok).
  assert (Forall (fun req => is_miss (d !!! cache_db self) attr req = true) requests)
    as Hmiss.
  { rewrite Forall_forall in Hok. apply Forall_forall. intros req Hin.
    destruct (Hok req Hin) as [b Hb]. unfold is_miss. rewrite Hb.
    destruct b; [done|]. by rewrite (Hcold req (proj1 (list_elem_of_In _ _) Hin)). }
  assert (List.filter (is_miss (d !!! cache_db self) attr) requests = requests) as Hall.
  { clear -Hmiss. induction Hmiss as [|req requests Hreq _ IH]; [done|].
    simpl. by rewrite Hreq, IH. }
  rewrite Hall in Hrem. split; [done|].
  pose proof (fn_fill _ _ _ _ _ _ Hfn) as Hfill. cbv zeta in Hfill.
  rewrite Hall in Hfill. destruct (Hfill Hnn) as (Hhit & ->).
  apply list_eq. intros i.
  destruct (requests !! i) as [req|] eqn:Hi.
  - rewrite (fill_slots_lookup_any _ _ _ _ _ _ Hi Hhit).
    rewrite (proj1 (Forall_forall _ _) Hmiss req (list_elem_of_lookup_2 _ _ _ Hi)).
    assert (List.filter (is_miss (d !!! cache_db self) attr) (take i requests)
            = take i requests) as ->.
    { apply Forall_take with (n := i) in Hmiss.
      clear -Hmiss. induction Hmiss as [|q l Hq _ IH]; [done|]. simpl. by rewrite Hq, IH.
    }
    rewrite length_take_le by (apply lookup_lt_Some in Hi; lia).
    rewrite take_ge by lia.
    destruct ((lm self attr requests d).1 !! i) eqn:Hr; [done|].
    apply lookup_ge_None in Hr. apply lookup_lt_Some in Hi. lia.
  - apply lookup_ge_None in Hi.
    rewrite !(proj2 (lookup_ge_None _ _)); [done|lia|].
    rewrite length_fill, length_map. lia.
Qed.

(** X10: a batch that is served from the cache entirely.  The backend
    is called with no request, the results are the stored values, and
    the call writes nothing: the store is as the backend leaves it. *)
Theorem fn_fully_cached self attr requests d :
  remaining self attr requests d = Ok [] ->
  exists results,
    fn self attr requests d = Ok (results, (lm self attr [] d).2) /\
    length results = length requests /\
    forall i req, requests !! i = Some req ->
      results !! i = (d !!! cache_db self) !! hash_args attr (args req) /\
      results !! i <> Some PyNone.
Proof.
  intros Hrem.
  destruct (fn_total _ _ _ _ _ Hrem) as [results Hfn]. simpl in Hfn.
  exists results. split; [done|].
  destruct (fn_inv _ _ _ _ _ _ Hfn) as (Hloop & Hrem' & Hmerge).
  rewrite Hrem in Hrem'. injection Hrem' as Hnil. rewrite <- Hnil in Hmerge.
  simpl in Hmerge. injection Hmerge as <-.
  split; [by rewrite length_map|].
  intros i req Hi. rewrite list_lookup_fmap, Hi. simpl.
  destruct (check_loop_ok _ _ _ _ _ Hloop) as (_ & _ & Hhit & _).
  rewrite Forall_forall in Hhit.
  assert (is_miss (d !!! cache_db self) attr req = false) as Hm.
  { destruct (is_miss (d !!! cache_db self) attr req) eqn:Hm; [|done].
    pose proof (filter_lookup_take _ _ _ _ Hi Hm) as Hl. rewrite <- Hnil in Hl. done. }
  destruct (Hhit req (list_elem_of_lookup_2 _ _ _ Hi) Hm) as (Hnn & _ & Hdb).
  split; [done|]. intros [= Heq]. rewrite Heq in Hnn. done.
Qed.

(** X11: the hook of a caching LM.  A result recorded with [add_partial]
    is read back under the fingerprint of its arguments; recording again
    for the same arguments replaces it; the other keys of the cache file
    and the other files are untouched. *)
Theorem add_partial_store self attr (payload : list pyval) (res res' : pyobj R) d :
  let hook := get_cache_hook self in
  let d1 := add_partial hook attr payload res d in
  (d1 !!! cache_db self) !! hash_args attr payload = Some res /\
  add_partial hook attr payload res' d1 = add_partial hook attr payload res' d /\
  (forall k, k <> hash_args attr payload ->
     (d1 !!! cache_db self) !! k = (d !!! cache_db self) !! k) /\
  (forall path, path <> cache_db self -> d1 !! path = d !! path).
Proof.
  cbv zeta. unfold add_partial, get_cache_hook, CacheHook_init. cbn [dbdict].
  split; [rewrite dbdict_set_lookup; by destruct (decide _)|].
  split.
  { unfold dbdict_set. rewrite lookup_total_insert_eq, !insert_insert_eq. done. }
  split.
  - intros k Hk. rewrite dbdict_set_lookup. destruct (decide _); [congruence|done].
  - intros path Hp. by apply dbdict_set_path_ne.
Qed.

(** X12: [CachingLM.__init__] on a path.  The cache file exists
    afterwards; the entries of a file that was there are kept, and so
    are the other files; on a path where there was no file, every
    request whose sampling test does not raise is handed to the
    backend. *)
Theorem CachingLM_init_store (lm0 : backend) path d attr requests :
  let self := (CachingLM_init lm0 path d).1 in
  let d' := (CachingLM_init lm0 path d).2 in
  cache_db self = path /\
  is_Some (d' !! path) /\
  (forall p, d' !!! p = (d !!! p : table)) /\
  (forall p, p <> path -> d' !! p = d !! p) /\
  (d !! path = None ->
   Forall (fun req => exists b, do_sample attr req = Ok b) requests ->
   remaining self attr requests d' = Ok requests).
Proof.
  cbv zeta. unfold CachingLM_init. cbn [fst snd cache_db].
  assert (forall p, sqlite_open path d !!! p = (d !!! p : table)) as Hkeep.
  { intros p. unfold sqlite_open. destruct (d !! path) as [t|] eqn:Hd; [done|].
    destruct (decide (path = p)) as [<-|Hp].
    - rewrite lookup_total_insert_eq. unfold lookup_total, map_lookup_total.
      by rewrite Hd.
    - by rewrite lookup_total_insert_ne. }
  split; [done|]. split.
  { unfold sqlite_open. destruct (d !! path) as [t|] eqn:Hd; [by rewrite Hd|].
    by rewrite lookup_insert_eq. }
  split; [done|]. split.
  { intros p Hp. unfold sqlite_open. destruct (d !! path); [done|].
    by rewrite lookup_insert_ne. }
  intros Hnone Hok. unfold remaining. cbn [cache_db]. rewrite Hkeep.
  assert (d !!! path = (∅ : table)) as ->.
  { unfold lookup_total, map_lookup_total. by rewrite Hnone. }
  rewrite check_loop_total; [| done |].
  - simpl. f_equal. induction Hok as [|req requests [b Hb] _ IH]; [done|].
    simpl. rewrite IH. unfold is_miss. rewrite Hb, lookup_empty. by destruct b.
  - apply Forall_forall. intros req _ _. by rewrite lookup_empty.
Qed.

End CachingMore.

(** ** The properties above on concrete batches *)

Lemma fn_hits_whatever_backend_witness :
  let requests := [req_ab; req_ac; req_ad] in
  let results := [PyObj ("loglikelihood", 1); PyObj ("cached", 7); PyNone] in
  let db := warm_disk !!! cache_db cached_none_first_lm in
  returned (fn cached_none_first_lm "loglikelihood" requests warm_disk) = Some results /\
  length results = length requests /\
  forall i req, requests !! i = Some req -> is_miss db "loglikelihood" req = false ->
    exists ob, db !! hash_args "loglikelihood" (args req) = Some ob /\ ob <> PyNone /\
               results !! i = Some ob.
Proof.
  destruct (returned_Some
              (fn cached_none_first_lm "loglikelihood" [req_ab; req_ac; req_ad] warm_disk)
              [PyObj ("loglikelihood", 1); PyObj ("cached", 7); PyNone])
    as [d' Hfn]; [vm_compute; reflexivity|].
  split; [vm_compute; reflexivity|].
  exact (fn_hits_whatever_backend cached_none_first_lm "loglikelihood"
           [req_ab; req_ac; req_ad] warm_disk _ d' Hfn).
Defined.

Lemma fn_store_effect_witness :
  match fn cached_lm "loglikelihood" [req_ab; req_ac; req_ad] warm_disk with
  | Ok (_, d') =>
      let db := warm_disk !!! cache_db cached_lm in
      let rem := List.filter (is_miss db "loglikelihood") [req_ab; req_ac; req_ad] in
      let rem_res := (lm cached_lm "loglikelihood" rem warm_disk).1 in
      let d_lm := (lm cached_lm "loglikelihood" rem warm_disk).2 in
      (forall path, path <> cache_db cached_lm -> d' !! path = d_lm !! path) /\
      (forall k, (forall req, In req rem -> hash_args "loglikelihood" (args req) <> k) ->
         (d' !!! cache_db cached_lm) !! k = (d_lm !!! cache_db cached_lm) !! k) /\
      (forall k, is_Some ((d_lm !!! cache_db cached_lm) !! k) ->
         is_Some ((d' !!! cache_db cached_lm) !! k)) /\
      (forall j req r, rem !! j = Some req -> rem_res !! j = Some r ->
         exists j' req' r',
           j <= j' /\ rem !! j' = Some req' /\ rem_res !! j' = Some r' /\
           hash_args "loglikelihood" (args req') = hash_args "loglikelihood" (args req) /\
           (forall j'' req'', j' < j'' < length rem_res -> rem !! j'' = Some req'' ->
              hash_args "loglikelihood" (args req'')
                <> hash_args "loglikelihood" (args req)) /\
           (d' !!! cache_db cached_lm) !! hash_args "loglikelihood" (args req) = Some r')
  | Raise _ => False
  end.
Proof.
  destruct (returned_Some
              (fn cached_lm "loglikelihood" [req_ab; req_ac; req_ad] warm_disk)
              [PyObj ("loglikelihood", 0); PyObj ("cached", 7); PyObj ("loglikelihood", 1)])
    as [d' Hfn]; [vm_compute; reflexivity|].
  rewrite Hfn.
  exact (fn_store_effect cached_lm "loglikelihood" [req_ab; req_ac; req_ad] warm_disk
           _ d' Hfn).
Defined.

Lemma fn_raises_on_stored_None_witness :
  fn cached_lm "loglikelihood" [req_ab; req_ac] none_disk = Raise AssertionError /\
  remaining cached_lm "loglikelihood" [req_ab; req_ac] none_disk = Raise AssertionError.
Proof.
  apply (fn_raises_on_stored_None cached_lm "loglikelihood" [req_ab; req_ac] none_disk
           req_ac).
  - repeat constructor; exists false; reflexivity.
  - right. left. reflexivity.
  - reflexivity.
  - vm_compute. reflexivity.
Defined.

Lemma fn_None_answer_poisons_cache_witness :
  match fn cached_none_first_lm "loglikelihood" [req_ab; req_ac] ∅ with
  | Ok (_, d1) =>
      (d1 !!! cache_db cached_none_first_lm) !! hash_args "loglikelihood" (args req_ab)
        = Some PyNone /\
      fn {| lm := numbered_lm; cache_db := cache_db cached_none_first_lm |}
        "loglikelihood" [req_ab; req_ac] d1 = Raise AssertionError
  | Raise _ => False
  end.
Proof.
  destruct (returned_Some
              (fn cached_none_first_lm "loglikelihood" [req_ab; req_ac] ∅)
              [PyObj ("loglikelihood", 1); PyNone])
    as [d1 Hfn]; [vm_compute; reflexivity|].
  rewrite Hfn.
  apply (fn_None_answer_poisons_cache cached_none_first_lm numbered_lm "loglikelihood"
           [req_ab; req_ac] ∅ [PyObj ("loglikelihood", 1); PyNone] d1 0 req_ab).
  - exact Hfn.
  - vm_compute. reflexivity.
  - vm_compute. reflexivity.
  - reflexivity.
  - assert (List.filter (is_miss (∅ !!! cache_db cached_none_first_lm) "loglikelihood")
              [req_ab; req_ac] = [req_ab; req_ac]) as ->
      by (vm_compute; reflexivity).
    intros [|[|j']] req' Hlt Hj'; [lia| |discriminate Hj'].
    injection Hj' as <-. intros Hh. vm_compute in Hh. discriminate Hh.
Defined.

Lemma fn_malformed_arguments_witness :
  fn cached_lm "generate_until"
    ([req_greedy] ++ mk_request "generate_until" [PStr "ctx"] 1 :: [req_sampled]) ∅
    = Raise IndexError.
Proof.
  assert (remaining cached_lm "generate_until" [req_greedy] ∅ = Ok [req_greedy]) as Hrem
    by (vm_compute; reflexivity).
  apply (proj1 (fn_malformed_arguments cached_lm [req_greedy]
                  (mk_request "generate_until" [PStr "ctx"] 1) [req_sampled] ∅ _ Hrem)).
  simpl. lia.
Defined.

Lemma fn_likelihood_calls_return_witness :
  remaining cached_none_first_lm "loglikelihood_rolling" [req_ab; req_ac] warm_disk =
    Ok (List.filter (is_miss (warm_disk !!! cache_db cached_none_first_lm)
                       "loglikelihood_rolling") [req_ab; req_ac]) /\
  exists results d',
    fn cached_none_first_lm "loglikelihood_rolling" [req_ab; req_ac] warm_disk
      = Ok (results, d').
Proof.
  apply (fn_likelihood_calls_return cached_none_first_lm "loglikelihood_rolling"
           [req_ab; req_ac] warm_disk).
  - discriminate.
  - apply wnn_set, wnn_empty.
Defined.

Lemma fn_backend_reply_length_witness :
  let requests := [req_ab; req_ac; req_ad] in
  let results := [PyObj ("loglikelihood", 0); PyObj ("cached", 7); PyNone] in
  let db := warm_disk !!! cache_db cached_first_only_lm in
  let rem := List.filter (is_miss db "loglikelihood") requests in
  let rem_res := (lm cached_first_only_lm "loglikelihood" rem warm_disk).1 in
  (rem = [req_ab; req_ad] /\ rem_res = [PyObj ("loglikelihood", 0)]) /\
  length results = length requests /\
  forall i req, requests !! i = Some req -> is_miss db "loglikelihood" req = true ->
    let j := length (List.filter (is_miss db "loglikelihood") (take i requests)) in
    rem !! j = Some req /\
    results !! i = Some (default PyNone (rem_res !! j)).
Proof.
  destruct (returned_Some
              (fn cached_first_only_lm "loglikelihood" [req_ab; req_ac; req_ad] warm_disk)
              [PyObj ("loglikelihood", 0); PyObj ("cached", 7); PyNone])
    as [d' Hfn]; [vm_compute; reflexivity|].
  split; [vm_compute; split; reflexivity|].
  apply (fn_backend_reply_length cached_first_only_lm "loglikelihood"
           [req_ab; req_ac; req_ad] warm_disk _ d' Hfn).
  vm_compute. repeat constructor. discriminate.
Defined.

Lemma fn_cold_cache_witness :
  remaining cached_lm "loglikelihood" [req_ab; req_ac] ∅ = Ok [req_ab; req_ac] /\
  [PyObj ("loglikelihood", 0); PyObj ("loglikelihood", 1)] =
    (lm cached_lm "loglikelihood" [req_ab; req_ac] ∅).1.
Proof.
  destruct (returned_Some
              (fn cached_lm "loglikelihood" [req_ab; req_ac] ∅)
              [PyObj ("loglikelihood", 0); PyObj ("loglikelihood", 1)])
    as [d' Hfn]; [vm_compute; reflexivity|].
  apply (fn_cold_cache cached_lm "loglikelihood" [req_ab; req_ac] ∅ _ d' Hfn).
  - intros req _. reflexivity.
  - reflexivity.
  - repeat constructor; discriminate.
Defined.

Lemma fn_fully_cached_witness :
  exists results,
    fn cached_lm "loglikelihood" [req_ac; req_ac] warm_disk
      = Ok (results, (lm cached_lm "loglikelihood" [] warm_disk).2) /\
    length results = length [req_ac; req_ac] /\
    forall i req, [req_ac; req_ac] !! i = Some req ->
      results !! i = (warm_disk !!! cache_db cached_lm) !! hash_args "loglikelihood" (args req) /\
      results !! i <> Some PyNone.
Proof.
  assert (remaining cached_lm "loglikelihood" [req_ac; req_ac] warm_disk = Ok []) as Hrem
    by (vm_compute; reflexivity).
  exact (fn_fully_cached cached_lm "loglikelihood" [req_ac; req_ac] warm_disk Hrem).
Defined.

(* ===================================================================== *)
(** * [_encode_pair] and [TemplateLM.loglikelihood] *)
(* ===================================================================== *)

Lemma rstrip_all_space ws : all_space ws = true -> rstrip ws = "".
Proof.
  induction ws as [|c ws IH]; [done|]. simpl.
  intros [Hc Hws]%andb_prop. by rewrite (IH Hws), Hc.
Qed.

Lemma rstrip_app_space s ws : all_space ws = true -> rstrip (s +:+ ws) = rstrip s.
Proof.
  intros Hws. induction s as [|c s IH]; [by apply rstrip_all_space|].
  rewrite app_String. simpl. by rewrite IH.
Qed.

Lemma string_app_inv_head s t1 t2 : s +:+ t1 = s +:+ t2 -> t1 = t2.
Proof.
  induction s as [|c s IH]; [done|]. rewrite !app_String. intros [= H]. by apply IH.
Qed.

Lemma all_space_app ws1 ws2 :
  all_space (ws1 +:+ ws2) = all_space ws1 && all_space ws2.
Proof.
  induction ws1 as [|c ws1 IH]; [done|]. rewrite app_String. simpl.
  by rewrite IH, andb_assoc.
Qed.

Lemma split_pair_shift context ws continuation :
  all_space ws = true ->
  split_pair (context +:+ ws) continuation = split_pair context (ws +:+ continuation).
Proof.
  intros Hws.
  destruct (split_pair_spec (context +:+ ws) continuation) as (ws1 & Hs1 & _ & ->).
  destruct (split_pair_spec context (ws +:+ continuation)) as (ws0 & Hs0 & _ & ->).
  rewrite (rstrip_app_space _ _ Hws) in *.
  rewrite Hs0 in Hs1 at 1. rewrite string_app_assoc in Hs1.
  apply string_app_inv_head in Hs1. by rewrite <- Hs1, string_app_assoc.
Qed.

Section EncodePairMore.

Context {token : Type} `{TemplateLM token}.

Lemma encode_pair_split context continuation :
  _encode_pair context continuation =
  let '(context', continuation') := split_pair context continuation in
  match AUTO_MODEL_CLASS with
  | Some AutoModelForSeq2SeqLM =>
      (tok_encode context' None, tok_encode continuation' (Some false))
  | _ =>
      (tok_encode context' None,
       drop (length (tok_encode context' None))
            (tok_encode (context' +:+ continuation') None))
  end.
Proof.
  unfold _encode_pair, split_pair.
  destruct (0 <? _); by destruct AUTO_MODEL_CLASS as [[|]|].
Qed.

(** X19: whitespace at the boundary of the pair.  A run of whitespace
    at the end of the context and the same run at the start of the
    continuation give the same two encodings. *)
Theorem encode_pair_whitespace_shift context ws continuation :
  all_space ws = true ->
  _encode_pair (context +:+ ws) continuation = _encode_pair context (ws +:+ continuation).
Proof.
  intros Hws. by rewrite !encode_pair_split, (split_pair_shift _ _ _ Hws).
Qed.

(** X20: the continuation tokens of a model that is not
    encoder-decoder.  They are the tokens of the joint encoding of
    context and continuation from the position [len(context_enc)] on:
    none when the encoding of the stripped context is at least as long
    as the joint encoding, and exactly the tokens that make the joint
    encoding from the context tokens when, and only when, the context
    tokens are the first tokens of the joint encoding. *)
Theorem encode_pair_continuation_tokens context continuation :
  AUTO_MODEL_CLASS <> Some AutoModelForSeq2SeqLM ->
  let whole_enc := tok_encode (context +:+ continuation) None in
  let context_enc := (_encode_pair context continuation).1 in
  let continuation_enc := (_encode_pair context continuation).2 in
  context_enc = tok_encode (rstrip context) None /\
  length continuation_enc = length whole_enc - length context_enc /\
  (length whole_enc <= length context_enc -> continuation_enc = []) /\
  (context_enc ++ continuation_enc = whole_enc <-> context_enc `prefix_of` whole_enc).
Proof.
  intros Hclass. cbv zeta. rewrite encode_pair_split.
  destruct (split_pair_spec context continuation) as (ws & Hs & _ & ->).
  assert (rstrip context +:+ (ws +:+ continuation) = context +:+ continuation) as ->.
  { by rewrite <- string_app_assoc, <- Hs. }
  assert (match AUTO_MODEL_CLASS with
          | Some AutoModelForSeq2SeqLM =>
              (tok_encode (rstrip context) None, tok_encode (ws +:+ continuation) (Some false))
          | _ =>
              (tok_encode (rstrip context) None,
               drop (length (tok_encode (rstrip context) None))
                    (tok_encode (context +:+ continuation) None))
          end =
          (tok_encode (rstrip context) None,
           drop (length (tok_encode (rstrip context) None))
                (tok_encode (context +:+ continuation) None))) as ->.
  { by destruct AUTO_MODEL_CLASS as [[|]|]. }
  cbn [fst snd].
  split; [done|]. split; [by rewrite length_drop|].
  split; [intros Hle; by apply drop_ge|].
  split.
  - intros Heq. eexists. symmetry. exact Heq.
  - intros [k Hk]. rewrite Hk. by rewrite drop_app_length.
Qed.

End EncodePairMore.

Section LoglikelihoodFacts.

Context {token score : Type} `{TemplateLM token} `{TemplateLM_tokens token score}.

(** X21: the requests that [TemplateLM.loglikelihood] hands to
    [_loglikelihood_tokens]: one for each request, in order, each with
    the pair of strings as it was given.  The context tokens of an empty
    context are the prefix token alone, and its continuation is encoded
    on its own; a context that is not empty is encoded without the
    whitespace at its end, so that a context of whitespace only gets the
    tokens of the empty string, and not the prefix token. *)
Theorem loglikelihood_new_reqs (requests : list (string * string)) disable_tqdm :
  exists new_reqs,
    TemplateLM_loglikelihood requests disable_tqdm =
      _loglikelihood_tokens new_reqs disable_tqdm /\
    map (fun r => r.1.1) new_reqs = requests /\
    forall i context continuation context_enc continuation_enc,
      new_reqs !! i = Some ((context, continuation), context_enc, continuation_enc) ->
      (context = "" ->
         context_enc = [prefix_token_id] /\
         continuation_enc = tok_encode continuation None) /\
      (context <> "" ->
         context_enc = tok_encode (rstrip context) None /\
         (context_enc, continuation_enc) = _encode_pair context continuation) /\
      (context <> "" -> all_space context = true ->
         context_enc = tok_encode "" None).
Proof.
  eexists. split; [reflexivity|]. split.
  - rewrite map_map. rewrite <- (map_id requests) at 2. apply map_ext.
    intros [context continuation]. by destruct (if String.eqb context "" then _ else _).
  - intros i context continuation context_enc continuation_enc Hi.
    rewrite list_lookup_fmap in Hi.
    destruct (requests !! i) as [[context0 continuation0]|]; [|done].
    simpl in Hi.
    destruct (String.eqb_spec context0 "") as [->|Hne].
    + injection Hi as <- <- <- <-. split; [done|]. split; done.
    + destruct (_encode_pair context0 continuation0) as [ce ke] eqn:Hpair.
      injection Hi as <- <- <- <-.
      assert (ce = tok_encode (rstrip context0) None) as Hce.
      { rewrite encode_pair_split in Hpair.
        destruct (split_pair_spec context0 continuation0) as (ws & _ & _ & Hsplit).
        rewrite Hsplit in Hpair.
        by destruct AUTO_MODEL_CLASS as [[|]|]; injection Hpair as <- _. }
      split; [done|]. split; [done|].
      intros _ Hws. by rewrite Hce, (rstrip_all_space _ Hws).
Qed.

End LoglikelihoodFacts.

Lemma encode_pair_whitespace_shift_witness :
  @_encode_pair ascii char_tokens ("ab" +:+ "  ") "cd" =
  @_encode_pair ascii char_tokens "ab" ("  " +:+ "cd").
Proof.
  apply (@encode_pair_whitespace_shift ascii char_tokens "ab" "  " "cd"). reflexivity.
Defined.

Lemma encode_pair_continuation_tokens_witness :
  let whole_enc := @tok_encode ascii char_tokens ("ab " +:+ "cd") None in
  let context_enc := (@_encode_pair ascii char_tokens "ab " "cd").1 in
  let continuation_enc := (@_encode_pair ascii char_tokens "ab " "cd").2 in
  context_enc = @tok_encode ascii char_tokens (rstrip "ab ") None /\
  length continuation_enc = length whole_enc - length context_enc /\
  (length whole_enc <= length context_enc -> continuation_enc = []) /\
  (context_enc ++ continuation_enc = whole_enc <-> context_enc `prefix_of` whole_enc).
Proof.
  apply (@encode_pair_continuation_tokens ascii char_tokens "ab " "cd"). discriminate.
Defined.

(** The prefix token is the context of the empty context only: the
    request with a space as context has no context token at all. *)
Lemma loglikelihood_space_context :
  @TemplateLM_loglikelihood ascii _ char_tokens echo_tokens [("", " a"); (" ", "a")] false =
  [ (("", " a"), ["000"%char], [" "%char; "a"%char]);
    ((" ", "a"), [],           [" "%char; "a"%char]) ].
Proof. reflexivity. Qed.

Section HashInputFacts.

Import Json JsonFacts.

Lemma all_7bit_app s1 s2 : all_7bit (s1 +:+ s2) = all_7bit s1 && all_7bit s2.
Proof.
  induction s1 as [|c s1 IH]; [done|]. rewrite app_String. simpl.
  by rewrite IH, andb_assoc.
Qed.

Lemma escape_char_7bit c : all_7bit (escape_char c) = true.
Proof. destruct c as [[] [] [] [] [] [] [] []]; vm_compute; reflexivity. Qed.

Lemma encode_basestring_ascii_7bit s : all_7bit (encode_basestring_ascii s) = true.
Proof.
  unfold encode_basestring_ascii. cbn [all_7bit]. rewrite all_7bit_app.
  replace (N_of_ascii dquote <? 128)%N with true by reflexivity. cbn [andb].
  apply andb_true_intro. split; [|reflexivity].
  induction s as [|c s IH]; [done|]. cbn [escape].
  by rewrite all_7bit_app, escape_char_7bit, IH.
Qed.

Lemma all_digits_7bit ds : all_digits ds = true -> all_7bit ds = true.
Proof.
  induction ds as [|c ds IH]; [done|]. simpl. intros [Hc Hds]%andb_prop.
  rewrite (IH Hds), andb_true_r. unfold is_digit in Hc.
  apply andb_prop in Hc as [_ Hc]. apply N.leb_le in Hc. apply N.ltb_lt. lia.
Qed.

Lemma int_repr_7bit z : all_7bit (int_repr z) = true.
Proof.
  destruct (int_repr_shape z) as (ds & _ & Hds & [-> | ->]).
  - by apply all_digits_7bit.
  - simpl. by apply all_digits_7bit.
Qed.

Lemma join_tail_7bit sep l :
  all_7bit sep = true -> Forall (fun s => all_7bit s = true) l ->
  all_7bit (join_tail sep l) = true.
Proof.
  intros Hsep. induction 1 as [|s l Hs _ IH]; [done|].
  cbn [join_tail]. by rewrite !all_7bit_app, Hsep, Hs, IH.
Qed.

Lemma join_7bit sep l :
  all_7bit sep = true -> Forall (fun s => all_7bit s = true) l ->
  all_7bit (join sep l) = true.
Proof.
  intros Hsep [|s l' Hs Hl]; [done|].
  cbn [join]. by rewrite all_7bit_app, Hs, join_tail_7bit.
Qed.

Lemma dumps_7bit v : all_7bit (dumps v) = true.
Proof.
  induction v as [|[]|z|s|l IH|l IH|d IH] using pyval_ind; try done.
  - apply int_repr_7bit.
  - apply encode_basestring_ascii_7bit.
  - cbn [dumps]. rewrite !all_7bit_app. rewrite join_7bit; [done|done|].
    by apply Forall_fmap.
  - cbn [dumps]. rewrite !all_7bit_app. rewrite join_7bit; [done|done|].
    by apply Forall_fmap.
  - cbn [dumps]. rewrite !all_7bit_app. rewrite join_7bit; [done|done|].
    apply Forall_fmap. eapply Forall_impl; [exact IH|]. intros [k v] Hv. unfold compose. cbn beta. cbn [fst snd] in *.
    by rewrite !all_7bit_app, encode_basestring_ascii_7bit, Hv.
Qed.

Lemma encode_utf8_7bit s :
  all_7bit s = true ->
  encode_utf8 s = map N_of_ascii (list_ascii_of_string s) /\
  Forall (fun b => (b < 128)%N) (encode_utf8 s).
Proof.
  induction s as [|c s IH]; [done|]. simpl. intros [Hc Hs]%andb_prop.
  destruct (IH Hs) as [-> Hall]. unfold utf8_char. rewrite Hc. simpl.
  split; [done|]. constructor; [by apply N.ltb_lt|done].
Qed.

(** X25: the text that [hash_args] hashes has characters below 128
    only, whatever characters the operation name and the arguments
    hold: the UTF-8 encoding that is hashed is the text byte for byte,
    one byte for each character. *)
Theorem hash_input_bytes attr (payload : list pyval) :
  let dat := hash_input attr payload in
  all_7bit dat = true /\
  encode_utf8 dat = map N_of_ascii (list_ascii_of_string dat) /\
  length (encode_utf8 dat) = String.length dat /\
  Forall (fun b => (b < 128)%N) (encode_utf8 dat).
Proof.
  cbv zeta. pose proof (dumps_7bit (PList (PStr attr :: payload))) as H7.
  fold (hash_input attr payload) in H7.
  destruct (encode_utf8_7bit _ H7) as [Heq Hall].
  split; [done|]. split; [done|]. split; [|done].
  rewrite Heq, length_map. clear.
  induction (hash_input attr payload) as [|c s IH]; [done|]. simpl. by rewrite IH.
Qed.

End HashInputFacts.

(* ===================================================================== *)
(** * The wrappers [PrefixLM], [CipherLM] and [SuffixLM] *)
(* ===================================================================== *)

Section WrapperFacts.

Import Wrappers.

Lemma mapM_Ok {A B : Type} (f : A -> result B) (g : A -> B) (l : list A) :
  Forall (fun x => f x = Ok (g x)) l -> mapM f l = Ok (map g l).
Proof.
  induction 1 as [|x l Hx _ IH]; [done|].
  cbn [mapM map]. rewrite Hx. simpl. fold (mapM f l). by rewrite IH.
Qed.

Lemma mapM_Raise {A B : Type} (f : A -> result B) (g : A -> B) (l1 l2 : list A) x e :
  Forall (fun x => f x = Ok (g x)) l1 -> f x = Raise e ->
  mapM f (l1 ++ x :: l2) = Raise e.
Proof.
  intros Hl1 Hx. induction Hl1 as [|y l1 Hy _ IH].
  - simpl. by rewrite Hx.
  - cbn [app mapM]. rewrite Hy. simpl. fold (mapM f (l1 ++ x :: l2)). by rewrite IH.
Qed.

Lemma startswith_app p s : startswith (p +:+ s) p = true.
Proof.
  unfold startswith. induction p as [|c p IH]; [by destruct s|].
  simpl. destruct (ascii_dec c c); [exact IH|done].
Qed.

Lemma assert_no_tag_str tags text :
  assert_no_tag tags (PStr text) =
  if existsb (fun tag => str_contains tag text) tags then Raise AssertionError else Ok tt.
Proof.
  induction tags as [|tag tags IH]; [done|].
  simpl. destruct (str_contains tag text); [done|]. exact IH.
Qed.

End WrapperFacts.

Section PrefixLMFacts.

Import Wrappers Wrappers.PrefixLM.

Context {score rolling_score : Type}.
Implicit Types (self : PrefixLM.t score rolling_score) (req : Instance)
  (requests : list Instance).

Lemma startswith_with_prefix self c : startswith (with_prefix self c) (prefix self) = true.
Proof.
  unfold with_prefix. destruct (startswith c (prefix self)) eqn:Hc; [done|].
  apply startswith_app.
Qed.

Lemma with_prefix_fixed self c :
  startswith c (prefix self) = true -> with_prefix self c = c.
Proof. unfold with_prefix. by intros ->. Qed.

Lemma prefixed_accepted self c :
  startswith c (prefix self) || negb (has_tag c) = true ->
  prefixed self (PStr c) = Ok (PStr (with_prefix self c)).
Proof.
  unfold prefixed, with_prefix, _safe_prefix.
  rewrite assert_no_tag_str. fold (has_tag c).
  destruct (startswith c (prefix self)); [done|]. by destruct (has_tag c).
Qed.

Lemma prefixed_rejected self c :
  startswith c (prefix self) || negb (has_tag c) = false ->
  prefixed self (PStr c) = Raise AssertionError.
Proof.
  unfold prefixed, _safe_prefix.
  rewrite assert_no_tag_str. fold (has_tag c).
  destruct (startswith c (prefix self)); [done|]. by destruct (has_tag c).
Qed.

(** A turn of the three loops. *)
Ltac turn_accepted self req :=
  unfold accepted, prefixed_request, context_of;
  destruct (args req) as [|[| | |c| | |] rest] eqn:Hargs; try done;
  cbn [tail]; intros [Hlen Hc]%andb_prop;
  apply Nat.eqb_eq in Hlen;
  repeat (destruct rest as [|? rest]; cbn [length] in Hlen; try lia);
  by rewrite (prefixed_accepted self c Hc).

Ltac turn_rejected self req :=
  unfold accepted, rejection;
  destruct (args req) as [|v rest] eqn:Hargs; [done|];
  destruct (length (v :: rest) =? _)%nat eqn:Hlen; cbn [negb andb];
  [ apply Nat.eqb_eq in Hlen;
    repeat (destruct rest as [|? rest]; cbn [length] in Hlen; try lia);
    destruct v as [| | |c| | |]; try done;
    intros Hc; by rewrite (prefixed_rejected self c Hc)
  | intros _; apply Nat.eqb_neq in Hlen;
    repeat (destruct rest as [|? rest]; cbn [length] in Hlen; try lia; try done) ].

Lemma loglikelihood_turn self req :
  let turn := fun req =>
    match args req with
    | [context; continuation] =>
        context ← prefixed self context;
        Ok {| request_type := request_type req; doc := doc req;
              arguments := [context; continuation];
              idx := idx req; metadata := metadata req |}
    | _ => Raise ValueError
    end in
  (accepted self 2 req = true -> turn req = Ok (prefixed_request self req)) /\
  (accepted self 2 req = false -> turn req = Raise (rejection 2 req)).
Proof.
  cbv zeta. split.
  - turn_accepted self req.
  - turn_rejected self req.
Qed.

Lemma loglikelihood_rolling_turn self req :
  let turn := fun req =>
    match args req with
    | [context] =>
        context ← prefixed self context;
        Ok {| request_type := request_type req; doc := doc req;
              arguments := [context];
              idx := idx req; metadata := metadata req |}
    | _ => Raise ValueError
    end in
  (accepted self 1 req = true -> turn req = Ok (prefixed_request self req)) /\
  (accepted self 1 req = false -> turn req = Raise (rejection 1 req)).
Proof.
  cbv zeta. split.
  - turn_accepted self req.
  - turn_rejected self req.
Qed.

Lemma forallb_false_split {A : Type} (p : A -> bool) (l : list A) :
  forallb p l = false ->
  exists l1 x l2, l = l1 ++ x :: l2 /\ forallb p l1 = true /\ p x = false.
Proof.
  induction l as [|y l IH]; [done|]. simpl.
  destruct (p y) eqn:Hy; simpl.
  - intros (l1 & x & l2 & -> & Hl1 & Hx)%IH.
    exists (y :: l1), x, l2. simpl. by rewrite Hy.
  - intros _. by exists [], y, l.
Qed.

Lemma loop_accepted {B : Type} self n (turn : Instance -> result Instance)
    (call : list Instance -> result B) requests :
  (forall req, accepted self n req = true -> turn req = Ok (prefixed_request self req)) ->
  forallb (accepted self n) requests = true ->
  (mapM turn requests ≫= call) = call (map (prefixed_request self) requests).
Proof.
  intros Hturn Hall. rewrite (mapM_Ok turn (prefixed_request self)); [done|].
  apply Forall_forall. intros req Hin. apply Hturn.
  rewrite forallb_forall in Hall. by apply Hall, list_elem_of_In.
Qed.

Lemma loop_rejected {B : Type} self n (turn : Instance -> result Instance)
    (call : list Instance -> result B) requests1 req requests2 :
  (forall req, accepted self n req = true -> turn req = Ok (prefixed_request self req)) ->
  (forall req, accepted self n req = false -> turn req = Raise (rejection n req)) ->
  forallb (accepted self n) requests1 = true ->
  accepted self n req = false ->
  (mapM turn (requests1 ++ req :: requests2) ≫= call) = Raise (rejection n req).
Proof.
  intros Hturn Hrej Hall Hreq.
  rewrite (mapM_Raise turn (prefixed_request self) _ _ _ (rejection n req)); [done| |].
  - apply Forall_forall. intros q Hin. apply Hturn.
    rewrite forallb_forall in Hall. by apply Hall, list_elem_of_In.
  - by apply Hrej.
Qed.

Lemma PrefixLM_methods self :
  (forall requests, forallb (accepted self 2) requests = true ->
     loglikelihood self requests =
     LM.loglikelihood (base_lm self) (map (prefixed_request self) requests)) /\
  (forall requests, forallb (accepted self 2) requests = true ->
     generate_until self requests =
     LM.generate_until (base_lm self) (map (prefixed_request self) requests)) /\
  (forall requests, forallb (accepted self 1) requests = true ->
     loglikelihood_rolling self requests =
     LM.loglikelihood_rolling (base_lm self) (map (prefixed_request self) requests)) /\
  (forall requests1 req requests2,
     forallb (accepted self 2) requests1 = true -> accepted self 2 req = false ->
     loglikelihood self (requests1 ++ req :: requests2) = Raise (rejection 2 req)) /\
  (forall requests1 req requests2,
     forallb (accepted self 2) requests1 = true -> accepted self 2 req = false ->
     generate_until self (requests1 ++ req :: requests2) = Raise (rejection 2 req)) /\
  (forall requests1 req requests2,
     forallb (accepted self 1) requests1 = true -> accepted self 1 req = false ->
     loglikelihood_rolling self (requests1 ++ req :: requests2) = Raise (rejection 1 req)).
Proof.
  repeat split.
  - intros requests Hall.
    apply (loop_accepted self 2); [|done]. intros req. apply loglikelihood_turn.
  - intros requests Hall.
    apply (loop_accepted self 2); [|done]. intros req. apply loglikelihood_turn.
  - intros requests Hall.
    apply (loop_accepted self 1); [|done]. intros req. apply loglikelihood_rolling_turn.
  - intros requests1 req requests2 Hall Hreq.
    apply (loop_rejected self 2); try done; intros q; apply loglikelihood_turn.
  - intros requests1 req requests2 Hall Hreq.
    apply (loop_rejected self 2); try done; intros q; apply loglikelihood_turn.
  - intros requests1 req requests2 Hall Hreq.
    apply (loop_rejected self 1); try done; intros q; apply loglikelihood_rolling_turn.
Qed.

(** X13: a batch that [PrefixLM] accepts.  The base LM is called once,
    with one request for each request of the batch, in order; the
    context of each starts with the prefix: it is the context of the
    request when that starts with the prefix, and the prefix, a space
    and the context otherwise; every other field and argument of the
    request is unchanged. *)
Theorem PrefixLM_hands_prefixed_requests self requests :
  let prefixed_requests := map (prefixed_request self) requests in
  (forallb (accepted self 2) requests = true ->
   loglikelihood self requests = LM.loglikelihood (base_lm self) prefixed_requests /\
   generate_until self requests = LM.generate_until (base_lm self) prefixed_requests) /\
  (forallb (accepted self 1) requests = true ->
   loglikelihood_rolling self requests =
     LM.loglikelihood_rolling (base_lm self) prefixed_requests) /\
  Forall2 (fun req req' =>
             startswith (context_of req') (prefix self) = true /\
             context_of req' =
               (if startswith (context_of req) (prefix self) then context_of req
                else prefix self +:+ " " +:+ context_of req) /\
             tail (args req') = tail (args req) /\
             request_type req' = request_type req /\ doc req' = doc req /\
             idx req' = idx req /\ metadata req' = metadata req)
          requests prefixed_requests.
Proof.
  cbv zeta.
  destruct (PrefixLM_methods self) as (Hll & Hgen & Hroll & _).
  split; [|split].
  - intros Hall. split; [by apply Hll|by apply Hgen].
  - apply Hroll.
  - apply Forall2_fmap_r, Forall_Forall2_diag, Forall_forall. intros req _.
    unfold prefixed_request, context_of at 1 2. cbn [args arguments].
    split; [apply startswith_with_prefix|]. done.
Qed.

(** X14: a batch that [PrefixLM] does not accept.  The first request
    that is not accepted decides the exception, and the base LM is not
    called: ValueError when the request has not the number of arguments
    of the method, AttributeError when its first argument is not a
    [str], and the assertion error when the context does not start with
    the prefix and has a LLaMA tag in it. *)
Theorem PrefixLM_first_rejected_request self requests1 req requests2 :
  let requests := requests1 ++ req :: requests2 in
  (forallb (accepted self 2) requests1 = true -> accepted self 2 req = false ->
   loglikelihood self requests = Raise (rejection 2 req) /\
   generate_until self requests = Raise (rejection 2 req)) /\
  (forallb (accepted self 1) requests1 = true -> accepted self 1 req = false ->
   loglikelihood_rolling self requests = Raise (rejection 1 req)) /\
  (forall n, accepted self n req = false ->
     match rejection n req with
     | ValueError => length (args req) <> n
     | AttributeError =>
         length (args req) = n /\ forall c, head (args req) <> Some (PStr c)
     | AssertionError =>
         length (args req) = n /\
         startswith (context_of req) (prefix self) = false /\
         has_tag (context_of req) = true
     | _ => False
     end).
Proof.
  cbv zeta.
  destruct (PrefixLM_methods self) as (_ & _ & _ & Hll & Hgen & Hroll).
  split; [|split].
  - intros Hall Hreq. split; [by apply Hll|by apply Hgen].
  - apply Hroll.
  - intros n. unfold accepted, rejection, context_of.
    destruct (length (args req) =? n)%nat eqn:Hlen; cbn [negb].
    + apply Nat.eqb_eq in Hlen.
      destruct (args req) as [|[| | |c| | |] rest]; try (intros _; split; [done|]; done).
      cbn [andb]. intros Hc. apply orb_false_elim in Hc as [Hp Ht].
      split; [done|]. split; [done|]. by apply negb_false_iff.
    + intros _. by apply Nat.eqb_neq.
Qed.

Lemma accepted_prefixed_request self n req :
  accepted self n req = true ->
  accepted self n (prefixed_request self req) = true /\
  prefixed_request self (prefixed_request self req) = prefixed_request self req.
Proof.
  unfold accepted, prefixed_request, context_of, args. cbn [arguments tail].
  destruct (arguments req) as [|[| | |c| | |] rest]; try done.
  cbn [length tail]. intros [Hlen _]%andb_prop. rewrite Hlen.
  rewrite startswith_with_prefix. split; [done|].
  by rewrite (with_prefix_fixed self _ (startswith_with_prefix self c)).
Qed.

Lemma accepted_batch_prefixed self n requests :
  forallb (accepted self n) requests = true ->
  forallb (accepted self n) (map (prefixed_request self) requests) = true /\
  map (prefixed_request self) (map (prefixed_request self) requests) =
  map (prefixed_request self) requests.
Proof.
  induction requests as [|req requests IH]; [done|]. simpl.
  intros [Hreq Hall]%andb_prop.
  destruct (accepted_prefixed_request self n req Hreq) as [-> ->].
  destruct (IH Hall) as [-> ->]. done.
Qed.

(** X15: a [PrefixLM] around a [PrefixLM] with the same prefix answers
    every batch as the inner one does: the prefix is added once, and a
    batch that one of them rejects, the other rejects with the same
    exception. *)
Theorem PrefixLM_twice self requests :
  let twice := {| base_lm := to_LM self; prefix := prefix self |} in
  loglikelihood twice requests = loglikelihood self requests /\
  loglikelihood_rolling twice requests = loglikelihood_rolling self requests /\
  generate_until twice requests = generate_until self requests.
Proof.
  cbv zeta.
  set (twice := {| base_lm := to_LM self; prefix := prefix self |}).
  assert (forall n q, accepted twice n q = accepted self n q) as Hacc by done.
  assert (forall q, prefixed_request twice q = prefixed_request self q) as Hpr by done.
  assert (forall l, map (prefixed_request twice) l = map (prefixed_request self) l) as Hmap
    by done.
  assert (forall n l, forallb (accepted twice n) l = forallb (accepted self n) l) as Hall
    by done.
  destruct (PrefixLM_methods self) as (Hll & Hgen & Hroll & Hll' & Hgen' & Hroll').
  destruct (PrefixLM_methods twice) as (Tll & Tgen & Troll & Tll' & Tgen' & Troll').
  subst twice. split; [|split].
  - destruct (forallb (accepted self 2) requests) eqn:Hok.
    + destruct (accepted_batch_prefixed self 2 requests Hok) as [Hok2 Hidem].
      rewrite Tll by (by rewrite Hall). rewrite Hmap. cbn [base_lm to_LM LM.loglikelihood].
      rewrite (Hll _ Hok2), Hidem. symmetry. by apply Hll.
    + destruct (forallb_false_split _ _ Hok) as (l1 & x & l2 & -> & Hl1 & Hx).
      rewrite Tll' by (by rewrite ?Hall, ?Hacc). symmetry. by apply Hll'.
  - destruct (forallb (accepted self 1) requests) eqn:Hok.
    + destruct (accepted_batch_prefixed self 1 requests Hok) as [Hok2 Hidem].
      rewrite Troll by (by rewrite Hall). rewrite Hmap.
      cbn [base_lm to_LM LM.loglikelihood_rolling].
      rewrite (Hroll _ Hok2), Hidem. symmetry. by apply Hroll.
    + destruct (forallb_false_split _ _ Hok) as (l1 & x & l2 & -> & Hl1 & Hx).
      rewrite Troll' by (by rewrite ?Hall, ?Hacc). symmetry. by apply Hroll'.
  - destruct (forallb (accepted self 2) requests) eqn:Hok.
    + destruct (accepted_batch_prefixed self 2 requests Hok) as [Hok2 Hidem].
      rewrite Tgen by (by rewrite Hall). rewrite Hmap. cbn [base_lm to_LM LM.generate_until].
      rewrite (Hgen _ Hok2), Hidem. symmetry. by apply Hgen.
    + destruct (forallb_false_split _ _ Hok) as (l1 & x & l2 & -> & Hl1 & Hx).
      rewrite Tgen' by (by rewrite ?Hall, ?Hacc). symmetry. by apply Hgen'.
Qed.

End PrefixLMFacts.

Section CipherLMFacts.

Import Wrappers Wrappers.CipherLM.

Context {score rolling_score : Type}.
Implicit Types (self : CipherLM.t score rolling_score) (req : Instance)
  (requests : list Instance) (base : LM.t score rolling_score).

Lemma tag_free_Ok text : tag_free text = true -> assert_no_tag llama_tags text = Ok tt.
Proof.
  unfold tag_free. by destruct (assert_no_tag llama_tags text) as [[]|].
Qed.

(** X16: [CipherLM.__init__] does not keep the [encrypt] it is given.
    Whatever that function is, loglikelihood hands the base LM each
    request with the text x as continuation, and loglikelihood_rolling
    with the text x as only argument; the contexts of loglikelihood, the
    other fields and the order of the requests are unchanged. *)
Theorem CipherLM_encrypts_to_x base (encrypt : pyval -> pyval) decrypt path requests :
  let self := __init__ base encrypt decrypt path in
  let encrypted_requests := map (fun req => with_last req (PStr "x")) requests in
  (forallb (accepted 2) requests = true ->
   loglikelihood self requests = LM.loglikelihood base encrypted_requests) /\
  (forallb (accepted 1) requests = true ->
   loglikelihood_rolling self requests = LM.loglikelihood_rolling base encrypted_requests) /\
  Forall2 (fun req req' =>
             last (args req') = Some (PStr "x") /\
             removelast (args req') = removelast (args req) /\
             request_type req' = request_type req /\ doc req' = doc req /\
             idx req' = idx req /\ metadata req' = metadata req)
          requests encrypted_requests.
Proof.
  cbv zeta. split; [|split].
  - intros Hall. unfold loglikelihood. cbn [__init__ base_lm].
    rewrite (mapM_Ok _ (fun req => with_last req (PStr "x"))); [done|].
    apply Forall_forall. intros req Hin.
    rewrite forallb_forall in Hall. specialize (Hall req (proj1 (list_elem_of_In _ _) Hin)).
    unfold accepted in Hall. apply andb_prop in Hall as [Hlen Hfree].
    apply Nat.eqb_eq in Hlen. unfold with_last.
    destruct (args req) as [|context [|continuation [|? rest]]]; try done.
    cbn [last] in Hfree. unfold _safe_encrypt. by rewrite (tag_free_Ok _ Hfree).
  - intros Hall. unfold loglikelihood_rolling. cbn [__init__ base_lm].
    rewrite (mapM_Ok _ (fun req => with_last req (PStr "x"))); [done|].
    apply Forall_forall. intros req Hin.
    rewrite forallb_forall in Hall. specialize (Hall req (proj1 (list_elem_of_In _ _) Hin)).
    unfold accepted in Hall. apply andb_prop in Hall as [Hlen Hfree].
    apply Nat.eqb_eq in Hlen. unfold with_last.
    destruct (args req) as [|context [|? rest]]; try done.
    cbn [last] in Hfree. unfold _safe_encrypt. by rewrite (tag_free_Ok _ Hfree).
  - apply Forall2_fmap_r, Forall_Forall2_diag, Forall_forall. intros req _.
    unfold with_last, args at 1 2. cbn [arguments].
    split; [apply last_snoc|]. split; [apply removelast_last|done].
Qed.

Lemma mapM_safe_decrypt self (results : list string) :
  mapM (_safe_decrypt self) results =
  if existsb has_tag results then Raise AssertionError
  else Ok (map (decrypt self) results).
Proof.
  induction results as [|text results IH]; [done|].
  cbn [mapM existsb map]. fold (mapM (_safe_decrypt self) results). rewrite IH.
  unfold _safe_decrypt at 1. rewrite assert_no_tag_str. fold (has_tag text).
  destruct (has_tag text); [done|]. simpl. by destruct (existsb has_tag results).
Qed.

(** X17: [CipherLM.generate_until] hands the batch to the base LM as it
    is, and answers with the generations of the base LM, each one
    decrypted, in order.  One generation with a LLaMA tag in it ends the
    call with the assertion error, and the other generations are lost;
    an exception of the base LM is the exception of the call. *)
Theorem CipherLM_generate_until_decrypts self requests :
  match LM.generate_until (base_lm self) requests with
  | Ok results =>
      generate_until self requests =
      if existsb has_tag results then Raise AssertionError
      else Ok (map (decrypt self) results)
  | Raise e => generate_until self requests = Raise e
  end.
Proof.
  unfold generate_until.
  destruct (LM.generate_until (base_lm self) requests) as [results|e]; [|done].
  apply mapM_safe_decrypt.
Qed.

Lemma getitem_dict_get (d : list (pykey * pyval)) key v default :
  getitem d key = Ok v -> dict_get d key default = v.
Proof.
  induction d as [|[k w] d IH]; [done|]. simpl.
  destruct (key_eqb k key); [by intros [= ->]|exact IH].
Qed.

(** X18: [CipherLM.apply_chat_template] on a chat history of messages
    that have a role and a content.  The base LM is given one message
    for each message, in order, with the two keys role and content
    only: the content of a system message is kept, and every other
    content is the text x, whatever [encrypt] was given to [__init__]. *)
Theorem CipherLM_chat_template base (encrypt : pyval -> pyval) decrypt path
    (chat_history : list (list (pykey * pyval))) :
  let self := __init__ base encrypt decrypt path in
  forallb accepted_message chat_history = true ->
  apply_chat_template self chat_history =
  LM.apply_chat_template base (map encrypted_message chat_history).
Proof.
  cbv zeta. intros Hall. unfold apply_chat_template. cbn [__init__ base_lm].
  rewrite (mapM_Ok _ encrypted_message); [done|].
  apply Forall_forall. intros message Hin.
  rewrite forallb_forall in Hall.
  specialize (Hall message (proj1 (list_elem_of_In _ _) Hin)).
  unfold accepted_message in Hall. unfold encrypted_message.
  destruct (getitem message "role") as [role|] eqn:Hrole; [|done].
  destruct (getitem message "content") as [content|] eqn:Hcontent; [|done].
  rewrite (getitem_dict_get _ _ _ PNone Hrole), (getitem_dict_get _ _ _ PNone Hcontent).
  cbn [mbind result_bind]. destruct (eq_str role "system"); [done|].
  cbn [orb] in Hall. unfold _safe_encrypt. by rewrite (tag_free_Ok _ Hall).
Qed.

End CipherLMFacts.

Section ReplaceFacts.

Import Wrappers.

Lemma str_contains_prefix tag text :
  String.prefix tag text = true -> str_contains tag text = true.
Proof. intros Hp. destruct text; simpl in *; by rewrite Hp. Qed.

Lemma str_contains_String tag c text :
  str_contains tag text = true -> str_contains tag (String c text) = true.
Proof. intros Hc. cbn [str_contains]. rewrite Hc. apply orb_true_r. Qed.

Lemma str_contains_app_r tag s text :
  str_contains tag text = true -> str_contains tag (s +:+ text) = true.
Proof.
  intros Hc. induction s as [|c s IH]; [done|].
  rewrite app_String. by apply str_contains_String.
Qed.

Lemma prefix_app tag text : String.prefix tag (tag +:+ text) = true.
Proof. apply (startswith_app tag text). Qed.

Lemma prefix_length old text :
  String.prefix old text = true -> String.length old <= String.length text.
Proof.
  revert old. induction text as [|c text IH]; intros [|a old]; simpl; try done; try lia.
  destruct (ascii_dec a c); [|done]. intros Hp%IH. lia.
Qed.

Lemma replace_absent old new text :
  str_contains old text = false -> str_replace old new text = text.
Proof.
  unfold str_replace. induction text as [|c text IH]; [done|].
  cbn [str_contains replace_from]. intros [Hp Hc]%orb_false_elim.
  rewrite Hp. by rewrite (IH Hc).
Qed.

Lemma replace_contains_new old new text :
  old <> "" ->
  str_contains old text = true -> str_contains new (str_replace old new text) = true.
Proof.
  intros Hold. unfold str_replace. induction text as [|c text IH].
  - by destruct old.
  - cbn [str_contains replace_from].
    destruct (String.prefix old (String c text)) eqn:Hp.
    + intros _. apply str_contains_prefix, prefix_app.
    + cbn [orb]. intros Hc%IH. by apply str_contains_String.
Qed.

Lemma replace_still_contains old s0 text :
  old <> "" ->
  str_contains old text = true ->
  str_contains old (str_replace old (s0 +:+ old) text) = true.
Proof.
  intros Hold. unfold str_replace. induction text as [|c text IH].
  - by destruct old.
  - cbn [str_contains replace_from].
    destruct (String.prefix old (String c text)) eqn:Hp.
    + intros _. rewrite string_app_assoc.
      apply str_contains_app_r, str_contains_prefix, prefix_app.
    + cbn [orb]. intros Hc%IH. by apply str_contains_String.
Qed.

Lemma replace_from_length old new skip text :
  1 <= String.length old <= String.length new ->
  String.length text <= String.length (replace_from old new skip text)
                        + skip `min` String.length text.
Proof.
  intros Hlen. revert skip. induction text as [|c text IH]; intros skip; [simpl; lia|].
  cbn [replace_from]. destruct skip as [|skip].
  - destruct (String.prefix old (String c text)) eqn:Hp.
    + rewrite string_length_app. specialize (IH (String.length old - 1)).
      cbn [String.length]. lia.
    + specialize (IH 0). cbn [String.length]. lia.
  - specialize (IH skip). cbn [String.length]. lia.
Qed.

Lemma replace_grows old s0 text :
  old <> "" ->
  str_contains old text = true ->
  String.length text + String.length s0
    <= String.length (str_replace old (s0 +:+ old) text).
Proof.
  intros Hold. unfold str_replace.
  assert (1 <= String.length old <= String.length (s0 +:+ old)) as Hlen.
  { rewrite string_length_app. destruct old; [done|]. simpl. lia. }
  induction text as [|c text IH].
  - by destruct old.
  - cbn [str_contains replace_from].
    destruct (String.prefix old (String c text)) eqn:Hp.
    + intros _. rewrite !string_length_app.
      pose proof (replace_from_length old (s0 +:+ old) (String.length old - 1) text Hlen).
      cbn [String.length]. lia.
    + cbn [orb]. intros Hc%IH. cbn [String.length]. lia.
Qed.

End ReplaceFacts.

Section SuffixLMFacts.

Import Wrappers Wrappers.SuffixLM.

Context {score rolling_score : Type}.
Implicit Types (self : SuffixLM.t score rolling_score) (req : Instance)
  (requests : list Instance).

(** X22: [SuffixLM.generate_until] with the suffix of a .csv path, the
    list of the lines of the file.  A batch that is not empty never
    reaches the base LM: [startswith] does not take a list, so that the
    first request ends the call, with TypeError when it has two
    arguments of which the first is a [str]. *)
Theorem SuffixLM_generate_until_csv self lines req requests :
  suffix self = Lines lines ->
  generate_until self (req :: requests) =
  Raise (match args req with
         | [PStr _; _] => TypeError
         | [_; _] => AttributeError
         | _ => ValueError
         end).
Proof.
  intros Hsuffix. unfold generate_until. cbn [mapM].
  unfold starts_with_suffix. rewrite Hsuffix.
  destruct (args req) as [|context [|until [|? rest]]]; [done|by destruct context..].
Qed.

Lemma safe_suffix_str self s0 c :
  suffix_0 self = Ok s0 -> has_tag c = false ->
  _safe_suffix self (PStr c) =
  Ok (PStr (str_replace question_answer (s0 +:+ question_answer) c)).
Proof.
  intros Hs0 Htag. unfold _safe_suffix. rewrite assert_no_tag_str.
  fold (has_tag c). rewrite Htag. cbn [mbind result_bind]. by rewrite Hs0.
Qed.

(** X23: [SuffixLM.loglikelihood_rolling] looks for a question mark,
    a space, a line feed, A, a full stop and a space, and
    [_safe_suffix] replaces a question mark, a line feed, A and a full
    stop.  A context in which the second text does not occur is handed
    to the base LM as it is, whether the first text occurs in it or
    not. *)
Theorem SuffixLM_rolling_unchanged self s0 requests :
  suffix_0 self = Ok s0 ->
  Forall (fun req => exists c,
            args req = [PStr c] /\ str_contains question_answer c = false /\
            (str_contains question_answer_spaced c = true -> has_tag c = false))
         requests ->
  loglikelihood_rolling self requests = LM.loglikelihood_rolling (base_lm self) requests.
Proof.
  intros Hs0 Hall. unfold loglikelihood_rolling.
  rewrite (mapM_Ok _ id); [by rewrite map_id|].
  eapply Forall_impl; [exact Hall|]. intros req (c & Hargs & Habsent & Htag).
  rewrite Hargs. cbn [contains mbind result_bind].
  destruct (str_contains question_answer_spaced c).
  - rewrite (safe_suffix_str self s0 c Hs0 (Htag eq_refl)).
    rewrite (replace_absent _ _ _ Habsent). cbn [mbind result_bind].
    destruct req. unfold args in Hargs. simpl in *. by rewrite Hargs.
  - cbn [mbind result_bind]. destruct req. unfold args in Hargs. simpl in *.
    by rewrite Hargs.
Qed.

(** X24: [SuffixLM.loglikelihood] on a batch of requests with two
    arguments, the first a [str] without LLaMA tag.  A context without
    the text question mark, line feed, A, full stop is handed to the
    base LM as it is.  In the others the first element of the suffix is
    put before the occurrences of that text: the context that is handed
    on has the suffix element followed by the text in it, it is longer
    by the length of the element at least, and the text still occurs in
    it, so that the test of the loop does not tell a context that has
    the suffix from one that has not. *)
Theorem SuffixLM_loglikelihood_inserts self s0 requests :
  suffix_0 self = Ok s0 ->
  Forall (fun req => exists c continuation,
            args req = [PStr c; continuation] /\
            (str_contains question_answer c = true -> has_tag c = false))
         requests ->
  loglikelihood self requests =
    LM.loglikelihood (base_lm self) (map (suffixed_request s0) requests) /\
  forall c,
    if str_contains question_answer c
    then str_contains (s0 +:+ question_answer) (with_suffix s0 c) = true /\
         str_contains question_answer (with_suffix s0 c) = true /\
         String.length c + String.length s0 <= String.length (with_suffix s0 c)
    else with_suffix s0 c = c.
Proof.
  intros Hs0 Hall. split.
  - unfold loglikelihood.
    rewrite (mapM_Ok _ (suffixed_request s0)); [done|].
    eapply Forall_impl; [exact Hall|]. intros req (c & continuation & Hargs & Htag).
    unfold suffixed_request, context_of, with_suffix. rewrite Hargs.
    cbn [contains mbind result_bind tail].
    destruct (str_contains question_answer c); [|done].
    by rewrite (safe_suffix_str self s0 c Hs0 (Htag eq_refl)).
  - intros c. unfold with_suffix.
    destruct (str_contains question_answer c) eqn:Hc; [|done].
    split; [by apply replace_contains_new|].
    split; [by apply replace_still_contains|by apply replace_grows].
Qed.

End SuffixLMFacts.

(** ** The wrappers on concrete batches *)

Lemma PrefixLM_hands_prefixed_requests_witness :
  Wrappers.PrefixLM.loglikelihood truthful [req_ab; req_prefixed] =
  Wrappers.Ok [mk_request "loglikelihood" [PStr "Answer truthfully. a"; PStr "b"] 0;
               req_prefixed].
Proof.
  rewrite (proj1 (proj1 (PrefixLM_hands_prefixed_requests truthful [req_ab; req_prefixed])
                    eq_refl)).
  reflexivity.
Defined.

Lemma PrefixLM_first_rejected_request_witness :
  Wrappers.PrefixLM.loglikelihood truthful ([req_ab] ++ req_tagged :: [req_ac]) =
    Wrappers.Raise Wrappers.AssertionError /\
  Wrappers.PrefixLM.generate_until truthful ([req_ab] ++ req_tagged :: [req_ac]) =
    Wrappers.Raise Wrappers.AssertionError.
Proof.
  apply (proj1 (PrefixLM_first_rejected_request truthful [req_ab] req_tagged [req_ac]));
    reflexivity.
Defined.

Lemma CipherLM_encrypts_to_x_witness :
  Wrappers.CipherLM.loglikelihood ciphered [req_ab; req_ac] =
  Wrappers.Ok [mk_request "loglikelihood" [PStr "a"; PStr "x"] 0;
               mk_request "loglikelihood" [PStr "a"; PStr "x"] 1].
Proof.
  unfold ciphered.
  rewrite (proj1 (CipherLM_encrypts_to_x echo_lm (fun text => text)
                    (fun text => text +:+ "!") "" [req_ab; req_ac]) eq_refl).
  reflexivity.
Defined.

Lemma CipherLM_chat_template_witness :
  let chat_history :=
    [ [(KStr "role", PStr "system"); (KStr "content", PStr "Be brief.")];
      [(KStr "role", PStr "user"); (KStr "content", PStr "Hello"); (KStr "name", PStr "Ann")] ] in
  Wrappers.CipherLM.apply_chat_template ciphered chat_history =
  Wrappers.LM.apply_chat_template echo_lm
    [ [(KStr "role", PStr "system"); (KStr "content", PStr "Be brief.")];
      [(KStr "role", PStr "user"); (KStr "content", PStr "x")] ].
Proof.
  exact (CipherLM_chat_template echo_lm (fun text => text) (fun text => text +:+ "!") ""
           [ [(KStr "role", PStr "system"); (KStr "content", PStr "Be brief.")];
             [(KStr "role", PStr "user"); (KStr "content", PStr "Hello"); (KStr "name", PStr "Ann")] ]
           eq_refl).
Defined.

Lemma SuffixLM_generate_until_csv_witness :
  Wrappers.SuffixLM.generate_until csv_suffixed [req_greedy] =
  Wrappers.Raise Wrappers.TypeError.
Proof.
  exact (SuffixLM_generate_until_csv csv_suffixed ["Think."; "Step by step."]
           req_greedy [] eq_refl).
Defined.

Lemma SuffixLM_rolling_unchanged_witness :
  Wrappers.str_contains Wrappers.SuffixLM.question_answer_spaced
    (Wrappers.context_of req_spaced) = true /\
  Wrappers.SuffixLM.loglikelihood_rolling csv_suffixed [req_spaced] =
  Wrappers.Ok [req_spaced].
Proof.
  split; [reflexivity|].
  rewrite (SuffixLM_rolling_unchanged csv_suffixed "Think." [req_spaced] eq_refl).
  - reflexivity.
  - repeat constructor. eexists. split; [reflexivity|]. split; reflexivity.
Defined.

Lemma SuffixLM_loglikelihood_inserts_witness :
  Wrappers.SuffixLM.loglikelihood csv_suffixed [req_question; req_ab] =
  Wrappers.Ok
    [mk_request "loglikelihood"
       [PStr ("Is it so" +:+ "Think." +:+ Wrappers.SuffixLM.question_answer +:+ " Yes");
        PStr " indeed"] 0;
     req_ab].
Proof.
  rewrite (proj1 (SuffixLM_loglikelihood_inserts csv_suffixed "Think."
                    [req_question; req_ab] eq_refl
                    ltac:(repeat constructor; eexists; eexists;
                          (split; [reflexivity|]); reflexivity))).
  reflexivity.
Defined.
